(** * The flow-transformer runtime of minemeld-core: [minemeld/ft/base.py]
      and [minemeld/fabric.py]

    A shallow embedding of the node base class [BaseFT], of its filter
    chain [_Filters] and of the fabric adapter [Fabric], followed by the
    properties of the node life cycle, of the data path and of the
    checkpoint barrier.

    Conventions of the embedding.
    - The sources are Python 2: [dict.keys()] is a list, a snapshot of the
      keys, and [str] is a byte string.
    - A Python dictionary with string keys is a [gmap string _]; [None] is
      the [None] of an [option].
    - A method is a function in a state-and-exception monad: an exception
      leaves the assignments made before it in place, as in Python.
    - The disk is a finite map from paths to contents on which writing and
      removing always succeed; opening a missing file for reading is the
      [IOError] that [read_checkpoint] catches. *)

From Stdlib Require Import String Ascii List Bool ZArith Lia.
From stdpp Require Import base option list gmap strings fin_maps pretty.
Import ListNotations.

Local Open Scope string_scope.
Local Open Scope list_scope.

(** ** Python values *)

(** Attribute values of an indicator record (JSON-like, immutable here, so
    that [copy.deepcopy] is the identity). *)
#[warnings="-register-all"]
Inductive pyval : Type :=
  | PyNone
  | PyBool (b : bool)
  | PyInt (z : Z)
  | PyStr (s : string)
  | PyList (l : list pyval).

Abbreviation record := (gmap string pyval).

(** An indicator argument: a string, or Python's [None]. *)
Definition pyval_of_indicator (indicator : option string) : pyval :=
  match indicator with
  | None => PyNone
  | Some i => PyStr i
  end.

Inductive exn : Type :=
  | AssertionError (msg : string)
  | NotImplementedError (msg : string)
  | AttributeError (msg : string).

Inductive result (A : Type) : Type :=
  | Ok (a : A)
  | Raise (e : exn).
Arguments Ok {A} a.
Arguments Raise {A} e.

Definition raises {A} (r : result A) : Prop := ∃ e, r = Raise e.

(** ** The state-and-exception monad *)

Definition M (S A : Type) : Type := S → result A * S.

Definition M_ret {S A} (a : A) : M S A := λ s, (Ok a, s).

Definition M_bind {S A B} (m : M S A) (k : A → M S B) : M S B :=
  λ s, match m s with
       | (Ok a, s') => k a s'
       | (Raise e, s') => (Raise e, s')
       end.

Definition raise {S A} (e : exn) : M S A := λ s, (Raise e, s).
Definition gets {S A} (f : S → A) : M S A := λ s, (Ok (f s), s).
Definition modify {S} (f : S → S) : M S unit := λ s, (Ok tt, f s).

Notation "x <- m ;; k" := (M_bind m (λ x, k))
  (at level 100, m at next level, right associativity,
   format "'[v' x  <-  m  ;; '/' k ']'").
Notation "m ;;; k" := (M_bind m (λ _, k))
  (at level 100, right associativity,
   format "'[v' m  ;;; '/' k ']'").

(** For each element in turn, as a [for] loop whose body may raise. *)
Fixpoint for_each {S A} (l : list A) (body : A → M S unit) : M S unit :=
  match l with
  | [] => M_ret tt
  | x :: rest => body x ;;; for_each rest body
  end.

(** ** Node states *)

(** Modelled from the spec: the constants of the module [ft_states], which
    is imported by [base.py] and is not among the sources; the spec's data
    model lists the states, and they are pairwise distinct. *)
Inductive ft_state : Type :=
  | READY | CONNECTED | INIT | REBUILDING | RESET
  | STARTED | CHECKPOINT | IDLE | STOPPED.

Global Instance ft_state_eq_dec : EqDecision ft_state.
Proof. solve_decision. Defined.

(** ** Strings *)

(** [str.isspace] of a byte in the C locale: space, and \t \n \v \f \r. *)
Definition isspace (c : ascii) : bool :=
  let n := nat_of_ascii c in
  Nat.eqb n 32 || (Nat.leb 9 n && Nat.leb n 13).

Fixpoint lstrip (l : list ascii) : list ascii :=
  match l with
  | [] => []
  | c :: rest => if isspace c then lstrip rest else l
  end.

Fixpoint rstrip (l : list ascii) : list ascii :=
  match l with
  | [] => []
  | c :: rest =>
      match rstrip rest with
      | [] => if isspace c then [] else [c]
      | kept => c :: kept
      end
  end.

(** [s.strip()] *)
Definition strip (s : string) : string :=
  string_of_list_ascii (rstrip (lstrip (list_ascii_of_string s))).

(** [k.startswith("_")] *)
Definition startswith (p k : string) : bool := String.prefix p k.

(** ** The filter chain: class [_Filters] *)

(** Modelled from the spec: the module [condition], imported by [base.py],
    is not among the sources. A condition is built from a declarative
    specification and is a pure boolean evaluation over the record. *)
Class ConditionModule : Type := {
  CondSpec : Type;
  Condition : Type;
  Condition_init : CondSpec → Condition;
  Condition_eval : Condition → record → bool
}.

Section Filters.
Context `{CM : ConditionModule}.

(** A filter of the configuration: [f.get('name', ...)],
    [f.get('conditions', [])], [f.get('actions')]. *)
Record RawFilter : Type := mkRawFilter {
  raw_name : option string;
  raw_conditions : list CondSpec;
  raw_actions : list string
}.

Record Filter : Type := mkFilter {
  fname : string;
  conditions : list Condition;
  actions : list string
}.

(** [_Filters.__init__]: the default name counts the filters built so
    far. *)
Definition Filters_init (filters : list RawFilter) : list Filter :=
  foldl
    (λ built f,
       built ++
       [ {| fname := default ("filter_" +:+ pretty (List.length built))
                             (raw_name f);
            conditions := map Condition_init (raw_conditions f);
            actions := raw_actions f |} ])
    [] filters.

(** The result of an accepting chain: [d] without the synthetic key, or
    no value when the caller gave none. *)
Definition accept (indicator : option string) (value : option record)
    (d : record) : option string * option record :=
  match value with
  | None => (indicator, None)
  | Some _ => (indicator, Some (delete "_indicator" d))
  end.

(** The loop over [f['actions']]; [None] when no action returned. *)
Fixpoint run_actions (acts : list string) (indicator : option string)
    (value : option record) (d : record)
    : option (option string * option record) :=
  match acts with
  | [] => None
  | a :: rest =>
      if String.eqb a "accept" then Some (accept indicator value d)
      else if String.eqb a "drop" then Some (None, None)
      else run_actions rest indicator value d
  end.

(** [r = True; for c in f['conditions']: r &= c.eval(d)] *)
Definition conditions_hold (conds : list Condition) (d : record) : bool :=
  foldl (λ r c, r && Condition_eval c d) true conds.

(** The loop over [self.filters], then the default accept. *)
Fixpoint run_filters (fs : list Filter) (indicator : option string)
    (value : option record) (d : record)
    : option string * option record :=
  match fs with
  | [] => accept indicator value d
  | f :: rest =>
      if negb (conditions_hold (conditions f) d)
      then run_filters rest indicator value d
      else match run_actions (actions f) indicator value d with
           | Some r => r
           | None => run_filters rest indicator value d
           end
  end.

(** [_Filters.apply] *)
Definition Filters_apply (fs : list Filter) (indicator : option string)
    (value : option record) : option string * option record :=
  let d := match value with
           | None => ∅
           | Some v => v
           end in
  let d := <["_indicator" := pyval_of_indicator indicator]> d in
  run_filters fs indicator value d.

(** The verdict of the chain alone: [true] when a [drop] action of a
    matching filter is reached before any [accept]. *)
Fixpoint first_terminal (acts : list string) : option bool :=
  match acts with
  | [] => None
  | a :: rest =>
      if String.eqb a "accept" then Some false
      else if String.eqb a "drop" then Some true
      else first_terminal rest
  end.

Fixpoint chain_drops (fs : list Filter) (d : record) : bool :=
  match fs with
  | [] => false
  | f :: rest =>
      if negb (conditions_hold (conditions f) d) then chain_drops rest d
      else match first_terminal (actions f) with
           | Some v => v
           | None => chain_drops rest d
           end
  end.

End Filters.

(** ** The node: class [BaseFT] *)

Section Node.
Context `{CM : ConditionModule}.

(** [config.get('infilters', [])] and [config.get('outfilters', [])] *)
Record Config : Type := mkConfig {
  cfg_infilters : list RawFilter;
  cfg_outfilters : list RawFilter
}.

(** The attributes of a node. [inputs_checkpoint] is [None] until
    [connect] assigns the attribute; [output] is the name of the channel
    of the publisher, when there is one. *)
Record BaseFT : Type := mkBaseFT {
  name : string;
  config : Config;
  infilters : list Filter;
  outfilters : list Filter;
  inputs : list string;
  output : option string;
  inputs_checkpoint : option (gmap string string);
  last_checkpoint : option string;
  state : ft_state
}.

Definition set_inputs (v : list string) (n : BaseFT) : BaseFT :=
  mkBaseFT (name n) (config n) (infilters n) (outfilters n) v (output n)
           (inputs_checkpoint n) (last_checkpoint n) (state n).
Definition set_output (v : option string) (n : BaseFT) : BaseFT :=
  mkBaseFT (name n) (config n) (infilters n) (outfilters n) (inputs n) v
           (inputs_checkpoint n) (last_checkpoint n) (state n).
Definition set_inputs_checkpoint (v : option (gmap string string))
    (n : BaseFT) : BaseFT :=
  mkBaseFT (name n) (config n) (infilters n) (outfilters n) (inputs n)
           (output n) v (last_checkpoint n) (state n).
Definition set_last_checkpoint (v : option string) (n : BaseFT) : BaseFT :=
  mkBaseFT (name n) (config n) (infilters n) (outfilters n) (inputs n)
           (output n) (inputs_checkpoint n) v (state n).
Definition set_state (v : ft_state) (n : BaseFT) : BaseFT :=
  mkBaseFT (name n) (config n) (infilters n) (outfilters n) (inputs n)
           (output n) (inputs_checkpoint n) (last_checkpoint n) v.

(** What travels on a pub channel. *)
Inductive payload : Type :=
  | IndicatorPayload (indicator : option string) (value : option record)
  | CheckpointPayload (value : string).

Record message : Type := mkMessage {
  channel : string;
  topic : string;
  body : payload
}.

(** What the node asks of its chassis. *)
Inductive chassis_request : Type :=
  | MgmtbusChannel (ftname : string)
  | SubChannel (ftname subname : string) (allowed_methods : list string)
  | PubChannel (ftname : string)
  | RpcChannel (ftname : string) (allowed_methods : list string).

(** The node together with what it acts on: the disk, the messages
    published so far, the requests made to the chassis so far. *)
Record World : Type := mkWorld {
  ft : BaseFT;
  files : gmap string string;
  wire : list message;
  chassis_log : list chassis_request
}.

Definition with_ft (f : BaseFT → BaseFT) (w : World) : World :=
  mkWorld (f (ft w)) (files w) (wire w) (chassis_log w).
Definition set_files (v : gmap string string) (w : World) : World :=
  mkWorld (ft w) v (wire w) (chassis_log w).
Definition set_wire (v : list message) (w : World) : World :=
  mkWorld (ft w) (files w) v (chassis_log w).
Definition set_chassis_log (v : list chassis_request) (w : World) : World :=
  mkWorld (ft w) (files w) (wire w) v.

Definition self : M World BaseFT := gets ft.
Definition assign (f : BaseFT → BaseFT) : M World unit :=
  modify (with_ft f).

Definition chkp_path (n : BaseFT) : string := name n +:+ ".chkp".

(** [BaseFT.read_checkpoint] *)
Definition read_checkpoint : M World unit :=
  assign (set_last_checkpoint None) ;;;
  n <- self ;;
  content <- gets (λ w, files w !! chkp_path n) ;;
  match content with
  | Some text =>
      assign (set_last_checkpoint (Some (strip text))) ;;;
      modify (λ w, set_files (delete (chkp_path n) (files w)) w)
  | None => M_ret tt
  end.

(** [BaseFT.create_checkpoint] *)
Definition create_checkpoint (value : string) : M World unit :=
  n <- self ;;
  modify (λ w, set_files (<[chkp_path n := value]> (files w)) w).

Definition chassis_call (rq : chassis_request) : M World unit :=
  modify (λ w, set_chassis_log (chassis_log w ++ [rq]) w).

(** [BaseFT.__init__], on the disk, the channels and the chassis that
    are there when the node is made. The attribute [state] is assigned
    last and read by nothing before. *)
Definition BaseFT_init (name : string) (config : Config)
    (files : gmap string string) (wire : list message)
    (chassis_log : list chassis_request) : result unit * World :=
  (read_checkpoint ;;;
   chassis_call (MgmtbusChannel name) ;;;
   assign (set_state READY))
    {| ft := {| name := name;
                config := config;
                infilters := Filters_init (cfg_infilters config);
                outfilters := Filters_init (cfg_outfilters config);
                inputs := [];
                output := None;
                inputs_checkpoint := None;
                last_checkpoint := None;
                state := READY |};
       files := files;
       wire := wire;
       chassis_log := chassis_log |}.

Definition sub_methods : list string := ["update"; "withdraw"; "checkpoint"].
Definition rpc_methods : list string :=
  ["update"; "withdraw"; "checkpoint"; "get"; "get_all"; "get_range";
   "length"].

(** [BaseFT.connect]; [output] is the truth value of the argument. *)
Definition connect (inputs : list string) (output : bool) : M World unit :=
  n <- self ;;
  if decide (state n ≠ READY)
  then raise (AssertionError "connect called in non ready FT")
  else
    for_each inputs
      (λ i, chassis_call (SubChannel (name n) i sub_methods)) ;;;
    assign (set_inputs inputs) ;;;
    assign (set_inputs_checkpoint (Some ∅)) ;;;
    (if output
     then chassis_call (PubChannel (name n)) ;;;
          assign (set_output (Some (name n)))
     else M_ret tt) ;;;
    chassis_call (RpcChannel (name n) rpc_methods) ;;;
    assign (set_state CONNECTED).

Definition apply_infilters (n : BaseFT) (indicator : option string)
    (value : option record) : option string * option record :=
  Filters_apply (infilters n) indicator value.

Definition apply_outfilters (n : BaseFT) (indicator : option string)
    (value : option record) : option string * option record :=
  Filters_apply (outfilters n) indicator value.

(** [self.output.publish(topic, payload)] *)
Definition publish (ch tp : string) (p : payload) : M World unit :=
  modify (λ w, set_wire (wire w ++ [mkMessage ch tp p]) w).

Definition emit_filtered (tp : string) (indicator : option string)
    (value : option record) : M World unit :=
  n <- self ;;
  match output n with
  | None => M_ret tt
  | Some ch =>
      let '(indicator, value) := apply_outfilters n indicator value in
      match indicator with
      | None => M_ret tt
      | Some _ => publish ch tp (IndicatorPayload indicator value)
      end
  end.

(** [BaseFT.emit_update] *)
Definition emit_update (indicator : option string) (value : option record)
    : M World unit :=
  emit_filtered "update" indicator value.

(** [BaseFT.emit_withdraw] *)
Definition emit_withdraw (indicator : option string)
    (value : option record) : M World unit :=
  emit_filtered "withdraw" indicator value.

(** [BaseFT.emit_checkpoint] *)
Definition emit_checkpoint (value : string) : M World unit :=
  n <- self ;;
  match output n with
  | None => M_ret tt
  | Some ch => publish ch "checkpoint" (CheckpointPayload value)
  end.

(** [self.state in [ft_states.STARTED, ft_states.CHECKPOINT]] *)
Definition data_path_open (st : ft_state) : bool :=
  bool_decide (st ∈ [STARTED; CHECKPOINT]).

(** Reading the attribute [self.inputs_checkpoint]. While it is not
    assigned, Python raises an [AttributeError] whose message names the
    class of the object; the message is the one for an object of the
    class [BaseFT] itself. *)
Definition get_inputs_checkpoint : M World (gmap string string) :=
  n <- self ;;
  match inputs_checkpoint n with
  | None =>
      raise (AttributeError
               "'BaseFT' object has no attribute 'inputs_checkpoint'")
  | Some cp => M_ret cp
  end.

(** [d.values()] and [d.keys()] *)
Definition values {V} (d : gmap string V) : list V := (map_to_list d).*2.
Definition keys {V} (d : gmap string V) : list string := (map_to_list d).*1.

(** The body of the loop of [checkpoint] over the markers received:
    [if v != value: raise AssertionError(...)]. *)
Definition marker_check (value v : string) : M World unit :=
  if decide (v ≠ value)
  then raise (AssertionError "different checkpoint value received")
  else M_ret tt.

(** [BaseFT.checkpoint] *)
Definition checkpoint (source value : string) : M World unit :=
  n <- self ;;
  if negb (data_path_open (state n))
  then raise (AssertionError
                "checkpoint received with state not STARTED or CHECKPOINT")
  else
    cp <- get_inputs_checkpoint ;;
    for_each (values cp) (marker_check value) ;;;
    assign (set_inputs_checkpoint (Some (<[source := value]> cp))) ;;;
    cp <- get_inputs_checkpoint ;;
    if decide (size cp ≠ length (inputs n))
    then assign (set_state CHECKPOINT)
    else
      assign (set_state IDLE) ;;;
      create_checkpoint value ;;;
      assign (set_last_checkpoint (Some value)) ;;;
      emit_checkpoint value.

Record state_info : Type := mkStateInfo {
  si_checkpoint : option string;
  si_state : ft_state;
  si_is_source : bool
}.

(** [BaseFT.mgmtbus_state_info] *)
Definition mgmtbus_state_info : M World state_info :=
  n <- self ;;
  M_ret {| si_checkpoint := last_checkpoint n;
           si_state := state n;
           si_is_source := bool_decide (length (inputs n) = 0) |}.

(** [BaseFT.mgmtbus_initialize] *)
Definition mgmtbus_initialize : M World string :=
  assign (set_state INIT) ;;;
  M_ret "OK".

(** [BaseFT.mgmtbus_checkpoint] *)
Definition mgmtbus_checkpoint (value : string) : M World string :=
  n <- self ;;
  if decide (length (inputs n) ≠ 0)
  then M_ret "ignored"
  else
    assign (set_state IDLE) ;;;
    create_checkpoint value ;;;
    assign (set_last_checkpoint (Some value)) ;;;
    emit_checkpoint value ;;;
    M_ret "OK".

(** [BaseFT.get_state] *)
Definition get_state : M World ft_state := gets (λ w, state (ft w)).

(** [BaseFT.start] *)
Definition start : M World unit :=
  n <- self ;;
  if decide (state n ≠ INIT)
  then raise (AssertionError "start on not INIT FT")
  else assign (set_state STARTED).

(** [BaseFT.stop] *)
Definition stop : M World unit :=
  n <- self ;;
  if negb (bool_decide (state n ∈ [IDLE; STARTED]))
  then raise (AssertionError "stop on not IDLE or STARTED FT")
  else assign (set_state STOPPED).

End Node.

(** ** The methods a subclass overrides, and the methods that call them *)

(** The overridable methods of [BaseFT]. A body acts on the node and on
    what the node acts on. *)
Class Hooks `{CM : ConditionModule} : Type := {
  filtered_update :
    string → option string → option record → M World unit;
  filtered_withdraw :
    string → option string → option record → M World unit;
  rebuild : M World unit;
  reset : M World unit
}.

Section Dispatch.
Context `{CM : ConditionModule}.

(** The bodies [BaseFT] itself gives to these methods. *)
Definition BaseFT_hooks : Hooks := {|
  filtered_update := λ _ _ _,
    n <- self ;; raise (NotImplementedError (name n +:+ ": update"));
  filtered_withdraw := λ _ _ _,
    n <- self ;; raise (NotImplementedError (name n +:+ ": withdraw"));
  rebuild := M_ret tt;
  reset := M_ret tt
|}.

(** A call of an overridable method made by a method of [BaseFT], with
    the arguments of the call. *)
Inductive hook_call : Type :=
  | CallFilteredUpdate (source : string) (indicator : option string)
      (value : option record)
  | CallFilteredWithdraw (source : string) (indicator : option string)
      (value : option record)
  | CallRebuild
  | CallReset.

(** A run of the node: the world, and the calls of overridable methods
    made so far. The bodies of these methods act on the world only, out
    of reach of the record of the calls. *)
Record Run : Type := mkRun {
  world : World;
  calls : list hook_call
}.

Definition lift {A} (m : M World A) : M Run A :=
  λ r, let '(res, w) := m (world r) in (res, mkRun w (calls r)).

Definition invoke (h : hook_call) (body : M World unit) : M Run unit :=
  λ r, let '(res, w) := body (world r) in (res, mkRun w (calls r ++ [h])).

(** [for k in value.keys(): if k.startswith("_"): value.pop(k)], the
    keys being the list taken before the loop. *)
Definition strip_underscore (value : record) : record :=
  foldl (λ v k, if startswith "_" k then delete k v else v)
        value (keys value).

Context `{H : !Hooks}.

(** [BaseFT.update] *)
Definition update (source : string) (indicator : option string)
    (value : option record) : M Run unit :=
  n <- lift self ;;
  if negb (data_path_open (state n)) then M_ret tt
  else
    cp <- lift get_inputs_checkpoint ;;
    if decide (is_Some (cp !! source))
    then raise (AssertionError "update recevied from checkpointed source")
    else
      let value := strip_underscore <$> value in
      let '(fltindicator, fltvalue) := apply_infilters n indicator value in
      match fltindicator with
      | None =>
          invoke (CallFilteredWithdraw source indicator value)
                 (filtered_withdraw source indicator value)
      | Some _ =>
          invoke (CallFilteredUpdate source fltindicator fltvalue)
                 (filtered_update source fltindicator fltvalue)
      end.

(** [BaseFT.withdraw] *)
Definition withdraw (source : string) (indicator : option string)
    (value : option record) : M Run unit :=
  n <- lift self ;;
  if negb (data_path_open (state n)) then M_ret tt
  else
    cp <- lift get_inputs_checkpoint ;;
    if decide (is_Some (cp !! source))
    then raise (AssertionError "withdraw recevied from checkpointed source")
    else
      let value := strip_underscore <$> value in
      invoke (CallFilteredWithdraw source indicator value)
             (filtered_withdraw source indicator value).

(** [BaseFT.mgmtbus_rebuild] *)
Definition mgmtbus_rebuild : M Run string :=
  lift (assign (set_state REBUILDING)) ;;;
  invoke CallRebuild rebuild ;;;
  lift (assign (set_state INIT)) ;;;
  M_ret "OK".

(** [BaseFT.mgmtbus_reset] *)
Definition mgmtbus_reset : M Run string :=
  lift (assign (set_state RESET)) ;;;
  invoke CallReset reset ;;;
  lift (assign (set_state INIT)) ;;;
  M_ret "OK".

(** The operations that are legal in some states only, and the states
    section 4.4 of the specification allows for each. *)
Inductive operation : Type :=
  | OpUpdate (source : string) (indicator : option string)
      (value : option record)
  | OpWithdraw (source : string) (indicator : option string)
      (value : option record)
  | OpCheckpoint (source value : string)
  | OpStart
  | OpStop
  | OpConnect (inputs : list string) (output : bool).

Definition allowed (op : operation) (st : ft_state) : bool :=
  match op with
  | OpUpdate _ _ _ | OpWithdraw _ _ _ | OpCheckpoint _ _ =>
      bool_decide (st = STARTED ∨ st = CHECKPOINT)
  | OpStart => bool_decide (st = INIT)
  | OpStop => bool_decide (st = STARTED ∨ st = IDLE)
  | OpConnect _ _ => bool_decide (st = READY)
  end.

Definition run_op (op : operation) : M Run unit :=
  match op with
  | OpUpdate s i v => update s i v
  | OpWithdraw s i v => withdraw s i v
  | OpCheckpoint s m => lift (checkpoint s m)
  | OpStart => lift start
  | OpStop => lift stop
  | OpConnect ins out => lift (connect ins out)
  end.

End Dispatch.

(** ** The fabric adapter: class [Fabric] *)

Module Fabric.
Section Adapter.
(** Modelled from the spec: the transport [minemeld.comm] behind
    [self.comm] is not among the sources; its [send_rpc] answers with a
    result or raises, and may change the state of the transport. *)
Variable CommState : Type.
Variable comm_send_rpc :
  string → string → record → bool → option Z → M CommState pyval.

(** [Fabric.send_rpc]. The value of the call is Python's [None]: the
    body ends without a [return]. *)
Definition send_rpc (sftname dftname method : string) (params : record)
    (block : bool) (timeout : option Z) : M CommState pyval :=
  let params := <["source" := PyStr sftname]> params in
  comm_send_rpc dftname method params block timeout ;;;
  M_ret PyNone.

(** What the transport is asked and answers for that call. *)
Definition transport_answer (sftname dftname method : string)
    (params : record) (block : bool) (timeout : option Z)
    : M CommState pyval :=
  comm_send_rpc dftname method (<["source" := PyStr sftname]> params)
                block timeout.

End Adapter.
End Fabric.

(** ** Calls to other nodes: [BaseFT.do_rpc] *)

Section Rpc.
Context `{CM : ConditionModule}.
(** Modelled from the spec: the chassis is not among the sources;
    [chassis.send_rpc(src, dst, method, params, block, timeout)] gives a
    result. *)
Variable ChassisState : Type.
Variable chassis_send_rpc :
  string → string → string → record → bool → option Z →
  M ChassisState pyval.

(** [BaseFT.do_rpc]; [kwargs] are the keyword arguments of the call. *)
Definition do_rpc (n : BaseFT) (dftname method : string) (block : bool)
    (timeout : option Z) (kwargs : record) : M ChassisState pyval :=
  chassis_send_rpc (name n) dftname method kwargs block timeout.

End Rpc.

(** Modelled from the spec: the chassis, which owns the fabric, is not
    among the sources; its [send_rpc(src, dst, method, params, block,
    timeout)] gives the result of the [send_rpc] of the fabric. *)
Definition Chassis_send_rpc := Fabric.send_rpc.

(** A transport that answers every call with the name of the method, and
    counts the calls. *)
Definition echo_comm (dftname method : string) (params : record)
    (block : bool) (timeout : option Z) : M nat pyval :=
  λ sent, (Ok (PyStr method), S sent).

(** ** Predicates used in the statements *)

Section Observations.
Context `{CM : ConditionModule}.

(** The state is one in which the data path is open. *)
Definition started_or_checkpoint (n : BaseFT) : Prop :=
  state n = STARTED ∨ state n = CHECKPOINT.



(** Every marker of the map is [m]; some marker of the map is not. *)
Definition agrees (cp : gmap string string) (m : string) : Prop :=
  ∀ s v, cp !! s = Some v → v = m.

Definition diverges (cp : gmap string string) (m : string) : Prop :=
  ∃ s v, cp !! s = Some v ∧ v ≠ m.

(** The messages [emit_checkpoint] publishes for a node. *)
Definition checkpoint_messages (n : BaseFT) (m : string) : list message :=
  match output n with
  | Some ch => [mkMessage ch "checkpoint" (CheckpointPayload m)]
  | None => []
  end.

(** The world after the tail of a completed barrier: state IDLE, marker
    on disk and in [last_checkpoint], checkpoint published. *)
Definition quiesced (n : BaseFT) (m : string) (w : World) : World :=
  mkWorld (set_last_checkpoint (Some m) (set_state IDLE n))
          (<[chkp_path n := m]> (files w))
          (wire w ++ checkpoint_messages n m)
          (chassis_log w).

(** The record the chain of filters is evaluated on. *)
Definition evaluated_record (indicator : option string)
    (value : option record) : record :=
  <["_indicator" := pyval_of_indicator indicator]> (default ∅ value).

End Observations.

(** Neither the first nor the last character is white space. *)
Definition no_outer_space (s : string) : Prop :=
  let l := list_ascii_of_string s in
  (∀ c, head l = Some c → isspace c = false) ∧
  (∀ c, last l = Some c → isspace c = false).

(** ** Instances for examples *)

(** Conditions that ask for an attribute to be present. *)
Definition has_attribute (c : string) (d : record) : bool :=
  bool_decide (is_Some (d !! c)).

Definition PresenceConditions : ConditionModule := {|
  CondSpec := string;
  Condition := string;
  Condition_init := λ c, c;
  Condition_eval := has_attribute
|}.

(** A subclass that forwards what it is given. *)
Definition Forwarder : @Hooks PresenceConditions := {|
  filtered_update := λ _ indicator value, emit_update indicator value;
  filtered_withdraw := λ _ indicator value, emit_withdraw indicator value;
  rebuild := M_ret tt;
  reset := M_ret tt
|}.

(** A node [C] with inputs [A] and [B] and an output; it drops the
    records that carry the attribute [noise]. *)
Definition node_C (st : ft_state) (cp : option (gmap string string))
    : @BaseFT PresenceConditions :=
  {| name := "C";
     config :=
       mkConfig [@mkRawFilter PresenceConditions None ["noise"] ["drop"]]
                [];
     infilters := [@mkFilter PresenceConditions "filter_0" ["noise"] ["drop"]];
     outfilters := [];
     inputs := ["A"; "B"];
     output := Some "C";
     inputs_checkpoint := cp;
     last_checkpoint := None;
     state := st |}.

Definition world_C (st : ft_state) (cp : option (gmap string string))
    : @World PresenceConditions :=
  {| ft := node_C st cp; files := ∅; wire := []; chassis_log := [] |}.

Definition run_C (st : ft_state) (cp : option (gmap string string))
    : @Run PresenceConditions :=
  {| world := world_C st cp; calls := [] |}.

(** Markers received by [C], and values sent to it. *)
Definition markers_A : gmap string string := {["A" := "cp-7"]}.
Definition markers_AB : gmap string string := <["B" := "cp-7"]> markers_A.

Definition ip_value : record :=
  <["type" := PyStr "IPv4"]> (<["_age" := PyInt 3]> ∅).
Definition noisy_value : record :=
  <["noise" := PyBool true]> (<["_age" := PyInt 3]> ∅).

(** A source [S]: no input; with or without an output. *)
Definition world_S (st : ft_state) (out : option string)
    : @World PresenceConditions :=
  {| ft := {| name := "S";
              config := mkConfig [] [];
              infilters := [];
              outfilters := [];
              inputs := [];
              output := out;
              inputs_checkpoint := Some ∅;
              last_checkpoint := None;
              state := st |};
     files := ∅; wire := []; chassis_log := [] |}.

(** ** The queries of [BaseFT], and runs of several calls *)

Module Query.
Section Query.
Context `{CM : ConditionModule}.

(** [BaseFT.get] *)
Definition get (source indicator : option string) : M World pyval :=
  n <- self ;;
  raise (NotImplementedError (name n +:+ ": get - not implemented")).

(** [BaseFT.get_all] *)
Definition get_all (source : option string) : M World pyval :=
  n <- self ;;
  raise (NotImplementedError (name n +:+ ": get_all - not implemented")).

(** [BaseFT.get_range] *)
Definition get_range (source index from_key to_key : option string)
    : M World pyval :=
  n <- self ;;
  raise (NotImplementedError (name n +:+ ": get_range - not implemented")).

(** [BaseFT.length] *)
Definition length (source : option string) : M World pyval :=
  n <- self ;;
  raise (NotImplementedError (name n +:+ ": length - not implemented")).

End Query.
End Query.

Section Runs.
Context `{CM : ConditionModule}.

(** The filter [_Filters.__init__] appends for the raw filter [f] when
    [k] filters are built already. *)
Definition built_filter (k : nat) (f : RawFilter) : Filter :=
  {| fname := default ("filter_" +:+ pretty k) (raw_name f);
     conditions := map Condition_init (raw_conditions f);
     actions := raw_actions f |}.

(** An action that ends the evaluation of a filter. *)
Definition terminal (a : string) : Prop := a = "accept" ∨ a = "drop".

(** A filter the chain passes over on the record [d]: a condition fails,
    or no action is [accept] or [drop]. *)
Definition passed_over (f : Filter) (d : record) : Prop :=
  conditions_hold (conditions f) d = false ∨
  ∀ a, a ∈ actions f → ¬ terminal a.




(** The map [self.inputs_checkpoint[source] = value] builds from a map
    over the checkpoints received. *)
Definition record_all (cp : gmap string string) (h : list (string * string))
    : gmap string string :=
  foldl (λ cp d, <[d.1 := d.2]> cp) cp h.

(** The checkpoint [m] delivered by each of the sources in turn. *)
Definition deliver (srcs : list string) (m : string) : M World unit :=
  for_each srcs (λ s, checkpoint s m).

(** The inputs-checkpoint map after these deliveries. *)
Definition markers_from (cp : gmap string string) (srcs : list string)
    (m : string) : gmap string string :=
  foldl (λ cp s, <[s := m]> cp) cp srcs.

(** The name of a node, its configuration and filters, its inputs and
    its output. *)
Definition wiring (n : BaseFT) :=
  (name n, config n, infilters n, outfilters n, inputs n, output n).

(** A method that leaves the wiring of the node and the requests made to
    the chassis as they are, whether it returns or raises. *)
Definition keeps_wiring {A} (op : M World A) : Prop :=
  ∀ w, wiring (ft (op w).2) = wiring (ft w) ∧
       chassis_log (op w).2 = chassis_log w.

(** A node made, connected, initialized and started:
    [BaseFT(name, chassis, config)], [connect(inputs, output)],
    [mgmtbus_initialize()], [start()]. *)
Definition boot (name : string) (config : Config)
    (files : gmap string string) (wire : list message)
    (chassis_log : list chassis_request) (inputs : list string)
    (output : bool) : result unit * World :=
  match BaseFT_init name config files wire chassis_log with
  | (Ok _, w) =>
      (connect inputs output ;;; mgmtbus_initialize ;;; start) w
  | (Raise e, w) => (Raise e, w)
  end.

End Runs.

(** A subclass whose [reset] and [rebuild] fail. *)
Definition Failing : @Hooks PresenceConditions := {|
  filtered_update := λ _ indicator value, emit_update indicator value;
  filtered_withdraw := λ _ indicator value, emit_withdraw indicator value;
  rebuild := raise (NotImplementedError "rebuild");
  reset := raise (NotImplementedError "reset")
|}.

(** Filters for examples: one that asks for [noise] and only logs, one
    that drops what carries [noise], one that accepts everything. *)
Definition log_noise : @Filter PresenceConditions :=
  @mkFilter PresenceConditions "log" ["noise"] ["log"].
Definition drop_noise : @Filter PresenceConditions :=
  @mkFilter PresenceConditions "drop" ["noise"]
    ["log"; "drop"; "accept"].
Definition accept_all : @Filter PresenceConditions :=
  @mkFilter PresenceConditions "all" [] ["accept"].

(** The node [C], just made, beside a checkpoint file. *)
Definition world_C_on_disk (text : string) : @World PresenceConditions :=
  {| ft := node_C READY None;
     files := {["C.chkp" := text]};
     wire := [];
     chassis_log := [] |}.

(** A node like [C] whose out-filters drop the records with [noise]. *)
Definition world_D (st : ft_state) (cp : option (gmap string string))
    : @World PresenceConditions :=
  {| ft := {| name := "D";
              config := mkConfig [] [];
              infilters := [];
              outfilters := [log_noise; drop_noise];
              inputs := ["A"; "B"];
              output := Some "D";
              inputs_checkpoint := cp;
              last_checkpoint := None;
              state := st |};
     files := ∅; wire := []; chassis_log := [] |}.

(** * Properties *)

(** ** The monad *)

(** Runs the monadic operations of a goal. *)
Ltac monad_run :=
  cbv [M_bind M_ret raise gets modify self assign lift invoke
       create_checkpoint emit_checkpoint publish get_inputs_checkpoint
       chassis_call].

Section MonadFacts.
Context {S : Type}.

Lemma bind_ok {A B} (m : M S A) (k : A → M S B) s a s' :
  m s = (Ok a, s') → M_bind m k s = k a s'.
Proof. intros E. unfold M_bind. by rewrite E. Qed.

Lemma bind_raise {A B} (m : M S A) (k : A → M S B) s e s' :
  m s = (Raise e, s') → M_bind m k s = (Raise e, s').
Proof. intros E. unfold M_bind. by rewrite E. Qed.

(** A loop whose body does nothing on every element does nothing. *)
Lemma for_each_skip {A} (l : list A) (body : A → M S unit) s :
  (∀ x, x ∈ l → body x s = (Ok tt, s)) → for_each l body s = (Ok tt, s).
Proof.
  induction l as [|x l IH]; intros Hb; simpl; [done|].
  rewrite (bind_ok _ _ s tt s).
  - apply IH. intros y Hy. apply Hb. by right.
  - apply Hb. by left.
Qed.

(** A loop stops at the first element on which the body raises. *)
Lemma for_each_raise {A} (l : list A) (body : A → M S unit) s e x :
  x ∈ l →
  (∀ y, y ∈ l → body y s = (Ok tt, s) ∨ body y s = (Raise e, s)) →
  body x s = (Raise e, s) →
  for_each l body s = (Raise e, s).
Proof.
  induction l as [|y l IH]; intros Hx Hb Hr; [by apply elem_of_nil in Hx|].
  simpl. destruct (Hb y) as [Hy|Hy]; [by left| |].
  - rewrite (bind_ok _ _ s tt s Hy).
    apply elem_of_cons in Hx as [->|Hx]; [congruence|].
    apply IH; [done| |done]. intros z Hz. apply Hb. by right.
  - by rewrite (bind_raise _ _ s e s Hy).
Qed.

End MonadFacts.

(** ** Dictionaries *)

Section DictFacts.

Lemma elem_of_values {V} (d : gmap string V) (v : V) :
  v ∈ values d ↔ ∃ k, d !! k = Some v.
Proof.
  unfold values. rewrite list_elem_of_fmap. split.
  - intros [[k x] [-> Hin]]. exists k. by apply elem_of_map_to_list.
  - intros [k Hk]. exists (k, v). split; [done|].
    by apply elem_of_map_to_list.
Qed.

Lemma elem_of_keys {V} (d : gmap string V) (k : string) :
  k ∈ keys d ↔ is_Some (d !! k).
Proof.
  unfold keys. rewrite list_elem_of_fmap. split.
  - intros [[k' x] [-> Hin]]. exists x. by apply elem_of_map_to_list.
  - intros [x Hx]. exists (k, x). split; [done|].
    by apply elem_of_map_to_list.
Qed.

(** Popping the reserved keys of a list of keys, one after the other. *)
Lemma pop_keys_lookup (l : list string) (v : record) (k : string) :
  foldl (λ v k, if startswith "_" k then delete k v else v) v l !! k =
  if startswith "_" k && bool_decide (k ∈ l) then None else v !! k.
Proof.
  revert v. induction l as [|a l IH]; intros v; simpl.
  - by rewrite andb_false_r.
  - rewrite IH. destruct (startswith "_" k) eqn:Hk; simpl; [|].
    + destruct (decide (k = a)) as [->|Hne].
      * rewrite Hk, lookup_delete_eq.
        rewrite (bool_decide_eq_true_2 (a ∈ a :: l)) by by left.
        by destruct (bool_decide (a ∈ l)).
      * assert (bool_decide (k ∈ a :: l) = bool_decide (k ∈ l)) as ->.
        { apply bool_decide_ext. rewrite elem_of_cons.
          split; [by intros [?|?] | by right]. }
        destruct (bool_decide (k ∈ l)); [done|].
        destruct (startswith "_" a); [|done].
        by rewrite lookup_delete_ne.
    + destruct (startswith "_" a) eqn:Ha; [|done].
      rewrite lookup_delete_ne; [done|]. intros ->. congruence.
Qed.

Lemma strip_underscore_lookup (v : record) (k : string) :
  strip_underscore v !! k = if startswith "_" k then None else v !! k.
Proof.
  unfold strip_underscore. rewrite pop_keys_lookup.
  destruct (startswith "_" k); simpl; [|done].
  case_bool_decide as Hin; [done|].
  destruct (v !! k) eqn:E; [|done].
  exfalso. apply Hin, elem_of_keys. by rewrite E.
Qed.

(** The stripped dictionary is the original one without its reserved
    keys. *)
Lemma strip_underscore_filter (v : record) :
  strip_underscore v = filter (λ kv, startswith "_" kv.1 = false) v.
Proof.
  apply map_eq. intros k. rewrite strip_underscore_lookup.
  destruct (startswith "_" k) eqn:Hk.
  - symmetry. apply map_lookup_filter_None. right. intros x _. simpl.
    congruence.
  - destruct (v !! k) eqn:E.
    + symmetry. by apply map_lookup_filter_Some.
    + symmetry. apply map_lookup_filter_None. by left.
Qed.


Lemma startswith_indicator : startswith "_" "_indicator" = true.
Proof. reflexivity. Qed.

End DictFacts.

(** ** The filter chain *)

Section FilterFacts.
Context `{CM : ConditionModule}.

Lemma run_actions_verdict acts indicator value d :
  run_actions acts indicator value d =
  match first_terminal acts with
  | Some true => Some (None, None)
  | Some false => Some (accept indicator value d)
  | None => None
  end.
Proof.
  induction acts as [|a acts IH]; simpl; [done|].
  destruct (String.eqb a "accept"); [done|].
  by destruct (String.eqb a "drop").
Qed.

Lemma run_filters_verdict fs indicator value d :
  run_filters fs indicator value d =
  if chain_drops fs d then (None, None) else accept indicator value d.
Proof.
  induction fs as [|f fs IH]; simpl; [done|].
  destruct (negb (conditions_hold (conditions f) d)); [done|].
  rewrite run_actions_verdict.
  by destruct (first_terminal (actions f)) as [[|]|].
Qed.

(** The chain either drops, or accepts and gives back the indicator and
    the evaluated record without the synthetic key. *)
Lemma Filters_apply_verdict fs indicator value :
  Filters_apply fs indicator value =
  if chain_drops fs (evaluated_record indicator value)
  then (None, None)
  else (indicator,
        (λ _, delete "_indicator" (evaluated_record indicator value))
          <$> value).
Proof.
  unfold Filters_apply. rewrite run_filters_verdict.
  unfold evaluated_record, accept. by destruct value.
Qed.

(** On a value without the key [_indicator], accepting gives the value
    back. *)
Lemma accepted_value (indicator : option string) (value : option record) :
  (∀ rec, value = Some rec → rec !! "_indicator" = None) →
  (λ _ : record, delete "_indicator" (evaluated_record indicator value))
    <$> value = value.
Proof.
  intros Hv. destruct value as [rec|]; simpl; [|done].
  unfold evaluated_record. simpl.
  rewrite delete_insert_eq, delete_id; [done|]. by apply Hv.
Qed.

Lemma stripped_no_indicator (value : option record) rec :
  strip_underscore <$> value = Some rec → rec !! "_indicator" = None.
Proof.
  destruct value as [v|]; simpl; [|done]. intros [= <-].
  by rewrite strip_underscore_lookup, startswith_indicator.
Qed.


(** The in-filters on a stripped value. *)
Lemma apply_infilters_stripped (n : BaseFT) indicator value :
  apply_infilters n indicator (strip_underscore <$> value) =
  if chain_drops (infilters n)
                 (evaluated_record indicator (strip_underscore <$> value))
  then (None, None)
  else (indicator, strip_underscore <$> value).
Proof.
  unfold apply_infilters.
  rewrite Filters_apply_verdict.
  destruct (chain_drops _ _); [done|].
  rewrite accepted_value; [done|]. apply stripped_no_indicator.
Qed.

End FilterFacts.

(** ** The data path: [update] and [withdraw] *)

Section DataPath.
Context `{CM : ConditionModule} `{H : !Hooks}.

Lemma data_path_open_spec (st : ft_state) :
  data_path_open st = true ↔ st = STARTED ∨ st = CHECKPOINT.
Proof.
  unfold data_path_open. rewrite bool_decide_eq_true.
  rewrite !elem_of_cons, elem_of_nil. tauto.
Qed.

Lemma calls_invoke (h : hook_call) (body : M World unit) (r : Run) :
  calls (invoke h body r).2 = calls r ++ [h].
Proof. unfold invoke. by destruct (body (world r)). Qed.

Lemma run_eta (r : Run) : mkRun (world r) (calls r) = r.
Proof. by destruct r. Qed.

(** [update] past its two guards. *)
Lemma update_past_guards (r : Run) source indicator value cp :
  started_or_checkpoint (ft (world r)) →
  inputs_checkpoint (ft (world r)) = Some cp →
  cp !! source = None →
  let stripped := strip_underscore <$> value in
  let flt := apply_infilters (ft (world r)) indicator stripped in
  update source indicator value r =
  match flt.1 with
  | None =>
      invoke (CallFilteredWithdraw source indicator stripped)
             (filtered_withdraw source indicator stripped) r
  | Some _ =>
      invoke (CallFilteredUpdate source flt.1 flt.2)
             (filtered_update source flt.1 flt.2) r
  end.
Proof.
  intros Hst Hcp Hsrc stripped flt.
  apply data_path_open_spec in Hst.
  unfold update, M_bind, lift, self, gets, get_inputs_checkpoint. simpl.
  rewrite Hst. simpl. unfold M_bind, M_ret, gets. simpl.
  rewrite Hcp. simpl. rewrite run_eta.
  destruct (decide (is_Some (cp !! source))) as [[x Hx]|_]; [congruence|].
  fold stripped. subst flt.
  by destruct (apply_infilters (ft (world r)) indicator stripped) as [[i|] v].
Qed.

(** [withdraw] past its two guards. *)
Lemma withdraw_past_guards (r : Run) source indicator value cp :
  started_or_checkpoint (ft (world r)) →
  inputs_checkpoint (ft (world r)) = Some cp →
  cp !! source = None →
  let stripped := strip_underscore <$> value in
  withdraw source indicator value r =
  invoke (CallFilteredWithdraw source indicator stripped)
         (filtered_withdraw source indicator stripped) r.
Proof.
  intros Hst Hcp Hsrc stripped.
  apply data_path_open_spec in Hst.
  unfold withdraw, M_bind, lift, self, gets, get_inputs_checkpoint. simpl.
  rewrite Hst. simpl. unfold M_bind, M_ret, gets. simpl.
  rewrite Hcp. simpl. rewrite run_eta.
  by destruct (decide (is_Some (cp !! source))) as [[x Hx]|_]; [congruence|].
Qed.

Lemma data_path_closed (n : BaseFT) :
  ¬ started_or_checkpoint n → data_path_open (state n) = false.
Proof.
  intros Hst. destruct (data_path_open _) eqn:E; [|done].
  by apply data_path_open_spec in E.
Qed.

(** [update] and [withdraw] at their first guard. *)
Lemma update_closed (r : Run) source indicator value :
  ¬ started_or_checkpoint (ft (world r)) →
  update source indicator value r = (Ok tt, r).
Proof.
  intros Hst. apply data_path_closed in Hst.
  unfold update, M_bind, lift, self, gets. simpl.
  rewrite Hst. simpl. unfold M_ret. by rewrite run_eta.
Qed.

Lemma withdraw_closed (r : Run) source indicator value :
  ¬ started_or_checkpoint (ft (world r)) →
  withdraw source indicator value r = (Ok tt, r).
Proof.
  intros Hst. apply data_path_closed in Hst.
  unfold withdraw, M_bind, lift, self, gets. simpl.
  rewrite Hst. simpl. unfold M_ret. by rewrite run_eta.
Qed.

(** C4: an update that passes the guards (state STARTED or CHECKPOINT,
    source not in the inputs-checkpoint map) is handed to exactly one
    subclass method, once: the outcome of the update and the world after
    it are those of that one call, made on the world as the update found
    it. When the in-filters give no indicator, it is [filtered_withdraw],
    with the indicator of the call and the value of the call without its
    underscore keys, and [filtered_update] is not called; otherwise it is
    [filtered_update], with the indicator and the value the in-filters
    gave, and [filtered_withdraw] is not called. The value without its
    underscore keys has every attribute of the value whose name does not
    begin with an underscore, with its value, and no other. For an
    indicator that is a string, the in-filters give no indicator exactly
    when the chain drops. *)
Theorem update_dispatches_once (r : Run) source indicator value cp :
  started_or_checkpoint (ft (world r)) →
  inputs_checkpoint (ft (world r)) = Some cp →
  cp !! source = None →
  let stripped := strip_underscore <$> value in
  let flt := apply_infilters (ft (world r)) indicator stripped in
  let after := update source indicator value r in
  (match value, stripped with
   | None, None => True
   | Some v, Some v' =>
       ∀ k, v' !! k = if String.prefix "_" k then None else v !! k
   | _, _ => False
   end) ∧
  (flt.1 = None →
     after.1 = (filtered_withdraw source indicator stripped (world r)).1 ∧
     world after.2 =
       (filtered_withdraw source indicator stripped (world r)).2 ∧
     calls after.2 =
       calls r ++ [CallFilteredWithdraw source indicator stripped]) ∧
  (flt.1 ≠ None →
     after.1 = (filtered_update source flt.1 flt.2 (world r)).1 ∧
     world after.2 = (filtered_update source flt.1 flt.2 (world r)).2 ∧
     calls after.2 = calls r ++ [CallFilteredUpdate source flt.1 flt.2]) ∧
  (∀ i, indicator = Some i →
     (flt.1 = None ↔
      chain_drops (infilters (ft (world r)))
                  (evaluated_record indicator stripped) = true)).
Proof.
  intros Hst Hcp Hsrc stripped flt after.
  assert (after =
          match flt.1 with
          | None =>
              invoke (CallFilteredWithdraw source indicator stripped)
                     (filtered_withdraw source indicator stripped) r
          | Some _ =>
              invoke (CallFilteredUpdate source flt.1 flt.2)
                     (filtered_update source flt.1 flt.2) r
          end) as Hupd
    by exact (update_past_guards r source indicator value cp Hst Hcp Hsrc).
  assert (∀ h body,
            (invoke h body r).1 = (body (world r)).1 ∧
            world (invoke h body r).2 = (body (world r)).2 ∧
            calls (invoke h body r).2 = calls r ++ [h]) as Hinv.
  { intros h body. unfold invoke. by destruct (body (world r)). }
  split_and!.
  - subst stripped. destruct value as [v|]; simpl; [|done].
    apply strip_underscore_lookup.
  - intros Hnone. rewrite Hnone in Hupd. rewrite Hupd. apply Hinv.
  - intros Hsome. destruct (flt.1) as [i|] eqn:E; [|done].
    rewrite Hupd. apply Hinv.
  - intros i ->. subst flt stripped. rewrite apply_infilters_stripped.
    destruct (chain_drops _ _); simpl; split; done.
Qed.

(** C6: an update or a withdraw that arrives in a state other than
    STARTED and CHECKPOINT returns and changes nothing: no subclass
    method is called, nothing is published, and the state, the
    inputs-checkpoint map, the last checkpoint and the files are the
    same. *)
Theorem data_path_closed_is_silent (r : Run) source indicator value :
  ¬ started_or_checkpoint (ft (world r)) →
  update source indicator value r = (Ok tt, r) ∧
  withdraw source indicator value r = (Ok tt, r) ∧
  ∀ after, after = (update source indicator value r).2 ∨
           after = (withdraw source indicator value r).2 →
    calls after = calls r ∧
    wire (world after) = wire (world r) ∧
    files (world after) = files (world r) ∧
    ft (world after) = ft (world r).
Proof.
  intros Hst.
  pose proof (update_closed r source indicator value Hst) as Hu.
  pose proof (withdraw_closed r source indicator value Hst) as Hw.
  split; [done|]. split; [done|].
  intros after [->| ->]; [rewrite Hu|rewrite Hw]; done.
Qed.


End DataPath.

(** ** The checkpoint barrier *)

Section Barrier.
Context `{CM : ConditionModule}.

Lemma agrees_or_diverges cp m : agrees cp m ∨ diverges cp m.
Proof.
  destruct (decide (Forall (λ v, v = m) (values cp))) as [Hall|Hnot].
  - left. intros s v Hs. rewrite Forall_forall in Hall.
    apply Hall, elem_of_values. eauto.
  - right. apply not_Forall_Exists in Hnot; [|apply _].
    apply Exists_exists in Hnot as (v & Hin & Hv).
    apply elem_of_values in Hin as [s Hs]. by exists s, v.
Qed.


Lemma agrees_insert cp s m : agrees cp m → agrees (<[s := m]> cp) m.
Proof.
  intros Ha s' v. rewrite lookup_insert_Some.
  intros [[_ <-]|[_ Hs]]; [done|]. by apply (Ha s').
Qed.

Lemma marker_loop_passes cp m w :
  agrees cp m → for_each (values cp) (marker_check m) w = (Ok tt, w).
Proof.
  intros Ha. apply for_each_skip. intros v Hv.
  apply elem_of_values in Hv as [s Hs]. unfold marker_check.
  destruct (decide (v ≠ m)) as [Hne|_]; [|done].
  exfalso. apply Hne. by apply (Ha s).
Qed.

Lemma marker_loop_raises cp m w :
  diverges cp m →
  for_each (values cp) (marker_check m) w =
  (Raise (AssertionError "different checkpoint value received"), w).
Proof.
  intros (s & v & Hs & Hv). apply for_each_raise with (x := v).
  - apply elem_of_values. eauto.
  - intros y _. unfold marker_check. destruct (decide (y ≠ m)); auto.
  - unfold marker_check. by destruct (decide (v ≠ m)).
Qed.

Lemma world_eta (w : World) :
  mkWorld (ft w) (files w) (wire w) (chassis_log w) = w.
Proof. by destruct w. Qed.

Lemma quiesce_tail (w : World) (m : string) :
  (assign (set_state IDLE) ;;;
   create_checkpoint m ;;;
   assign (set_last_checkpoint (Some m)) ;;;
   emit_checkpoint m) w = (Ok tt, quiesced (ft w) m w).
Proof.
  unfold quiesced, checkpoint_messages. monad_run. simpl.
  destruct (output (ft w)); simpl; [done|].
  by rewrite app_nil_r.
Qed.

(** [checkpoint] when the marker agrees with the map. *)
Lemma checkpoint_agreeing (w : World) source m cp :
  started_or_checkpoint (ft w) →
  inputs_checkpoint (ft w) = Some cp →
  agrees cp m →
  let n := set_inputs_checkpoint (Some (<[source := m]> cp)) (ft w) in
  checkpoint source m w =
  if decide (size (<[source := m]> cp) ≠ length (inputs (ft w)))
  then (Ok tt, mkWorld (set_state CHECKPOINT n)
                       (files w) (wire w) (chassis_log w))
  else (Ok tt, quiesced n m w).
Proof.
  intros Hst Hcp Ha n.
  apply data_path_open_spec in Hst.
  unfold checkpoint. unfold M_bind at 1. unfold self at 1, gets at 1.
  rewrite Hst. simpl.
  rewrite (bind_ok _ _ w cp w).
  2:{ unfold get_inputs_checkpoint, M_bind, self, gets. by rewrite Hcp. }
  rewrite (bind_ok _ _ w tt w) by by apply marker_loop_passes.
  unfold M_bind at 1. unfold assign at 1, modify at 1.
  unfold M_bind at 1. unfold get_inputs_checkpoint at 1.
  unfold M_bind at 1. unfold self, gets, M_ret. simpl.
  destruct (decide (size (<[source := m]> cp) ≠ length (inputs (ft w)))).
  - done.
  - by rewrite quiesce_tail.
Qed.

(** [checkpoint] when the marker differs from one in the map. *)
Lemma checkpoint_diverging (w : World) source m cp :
  started_or_checkpoint (ft w) →
  inputs_checkpoint (ft w) = Some cp →
  diverges cp m →
  checkpoint source m w =
  (Raise (AssertionError "different checkpoint value received"), w).
Proof.
  intros Hst Hcp Hd.
  apply data_path_open_spec in Hst.
  unfold checkpoint. unfold M_bind at 1. unfold self at 1, gets at 1.
  rewrite Hst. simpl.
  rewrite (bind_ok _ _ w cp w).
  2:{ unfold get_inputs_checkpoint, M_bind, self, gets. by rewrite Hcp. }
  by rewrite (bind_raise _ _ w _ w (marker_loop_raises cp m w Hd)).
Qed.


(** *** The checkpoints received so far *)


Lemma record_all_lookup cp h s v :
  record_all cp h !! s = Some v → cp !! s = Some v ∨ (s, v) ∈ h.
Proof.
  revert cp. induction h as [|[s' m'] h IH]; intros cp; simpl; [by left|].
  intros Hl. apply IH in Hl as [Hl|Hl]; [|right; by right].
  apply lookup_insert_Some in Hl as [[<- <-]|[_ Hl]]; [right; by left|].
  by left.
Qed.






End Barrier.

Section BarrierClaims.
Context `{CM : ConditionModule}.


(** C2: in state STARTED or CHECKPOINT, [checkpoint(source, m)] raises
    if and only if the inputs-checkpoint map already holds a marker other
    than [m]; it is then the assertion error of the divergence, and the
    node and its files are as before the call: state, map,
    [last_checkpoint] and checkpoint file. *)
Theorem checkpoint_divergence_is_fatal (w : World) (source m : string)
    (cp : gmap string string) :
  started_or_checkpoint (ft w) →
  inputs_checkpoint (ft w) = Some cp →
  (raises (checkpoint source m w).1 ↔ diverges cp m) ∧
  (diverges cp m →
     checkpoint source m w =
     (Raise (AssertionError "different checkpoint value received"), w)).
Proof.
  intros Hst Hcp. split; [split|].
  - intros [e He]. destruct (agrees_or_diverges cp m) as [Ha|Hd]; [|done].
    rewrite (checkpoint_agreeing w source m cp Hst Hcp Ha) in He.
    by destruct (decide _).
  - intros Hd. rewrite (checkpoint_diverging w source m cp Hst Hcp Hd).
    by eexists.
  - by apply checkpoint_diverging.
Qed.

(** C10: [mgmtbus_checkpoint] looks at no state. With inputs it answers
    'ignored' and changes nothing; without inputs it sets the state to
    IDLE, writes the marker to the checkpoint file and to
    [last_checkpoint], emits the checkpoint as [emit_checkpoint] does (a
    message on the output, when there is one) and answers 'OK', whatever
    the state of the node was; the inputs, the output and the
    inputs-checkpoint map stay as they are. *)
Theorem mgmtbus_checkpoint_unguarded (w : World) (m : string) :
  let after := (mgmtbus_checkpoint m w).2 in
  match inputs (ft w) with
  | _ :: _ => mgmtbus_checkpoint m w = (Ok "ignored", w)
  | [] =>
      (mgmtbus_checkpoint m w).1 = Ok "OK" ∧
      state (ft after) = IDLE ∧
      files after = <[name (ft w) +:+ ".chkp" := m]> (files w) ∧
      last_checkpoint (ft after) = Some m ∧
      wire after =
        wire w ++
        match output (ft w) with
        | Some ch => [mkMessage ch "checkpoint" (CheckpointPayload m)]
        | None => []
        end ∧
      wire after = wire (emit_checkpoint m w).2 ∧
      inputs (ft after) = [] ∧
      output (ft after) = output (ft w) ∧
      inputs_checkpoint (ft after) = inputs_checkpoint (ft w) ∧
      chassis_log after = chassis_log w
  end.
Proof.
  intros after. subst after.
  assert (mgmtbus_checkpoint m w =
          match inputs (ft w) with
          | _ :: _ => (Ok "ignored", w)
          | [] => (Ok "OK", quiesced (ft w) m w)
          end) as Hrun.
  { unfold mgmtbus_checkpoint. unfold M_bind at 1, self at 1, gets at 1.
    destruct (inputs (ft w)) as [|i ins]; simpl; [|done].
    change (M_bind (assign (set_state IDLE))
              (λ _, M_bind (create_checkpoint m)
                (λ _, M_bind (assign (set_last_checkpoint (Some m)))
                  (λ _, M_bind (emit_checkpoint m) (λ _, M_ret "OK")))) w)
      with (M_bind (M_bind (assign (set_state IDLE))
              (λ _, M_bind (create_checkpoint m)
                (λ _, M_bind (assign (set_last_checkpoint (Some m)))
                  (λ _, emit_checkpoint m)))) (λ _, M_ret "OK") w).
    by rewrite (bind_ok _ _ w tt _ (quiesce_tail w m)). }
  rewrite Hrun. destruct (inputs (ft w)) as [|i ins] eqn:Hin; [|done].
  simpl. split_and!; try done.
  unfold checkpoint_messages. monad_run. simpl.
  destruct (output (ft w)); simpl; [done|]. by rewrite app_nil_r.
Qed.

End BarrierClaims.

(** ** The life cycle *)

Section LifeCycle.
Context `{CM : ConditionModule}.

Lemma for_each_chassis_call {A} (l : list A) (f : A → chassis_request)
    (w : World) :
  for_each l (λ x, chassis_call (f x)) w =
  (Ok tt, set_chassis_log (chassis_log w ++ map f l) w).
Proof.
  revert w. induction l as [|x l IH]; intros w; simpl.
  - unfold M_ret, set_chassis_log. by rewrite app_nil_r, world_eta.
  - unfold M_bind, chassis_call, modify. rewrite IH.
    unfold set_chassis_log. simpl. by rewrite <- app_assoc.
Qed.

(** [connect] on a node in state READY. *)
Lemma connect_ready (w : World) (ins : list string) (out : bool) :
  state (ft w) = READY →
  connect ins out w =
  (Ok tt,
   mkWorld
     (mkBaseFT (name (ft w)) (config (ft w)) (infilters (ft w))
        (outfilters (ft w)) ins
        (if out then Some (name (ft w)) else output (ft w))
        (Some ∅) (last_checkpoint (ft w)) CONNECTED)
     (files w) (wire w)
     (chassis_log w ++
      map (λ i, SubChannel (name (ft w)) i sub_methods) ins ++
      (if out then [PubChannel (name (ft w))] else []) ++
      [RpcChannel (name (ft w)) rpc_methods])).
Proof.
  intros Hst. unfold connect. unfold M_bind at 1, self at 1, gets at 1.
  rewrite Hst. simpl.
  rewrite (bind_ok _ _ w tt _ (for_each_chassis_call ins _ w)).
  destruct out; monad_run; simpl; by rewrite <- !app_assoc.
Qed.

Context `{H : !Hooks}.

(** [mgmtbus_reset] and [mgmtbus_rebuild] around a hook that returns:
    the node is left as the hook left it, in state INIT. *)
Lemma mgmtbus_reset_returns (r : Run) (w' : World) :
  reset (with_ft (set_state RESET) (world r)) = (Ok tt, w') →
  mgmtbus_reset r =
  (Ok "OK", mkRun (with_ft (set_state INIT) w') (calls r ++ [CallReset])).
Proof.
  intros Hhook. unfold mgmtbus_reset. monad_run. simpl.
  by rewrite Hhook.
Qed.

Lemma mgmtbus_rebuild_returns (r : Run) (w' : World) :
  rebuild (with_ft (set_state REBUILDING) (world r)) = (Ok tt, w') →
  mgmtbus_rebuild r =
  (Ok "OK", mkRun (with_ft (set_state INIT) w') (calls r ++ [CallRebuild])).
Proof.
  intros Hhook. unfold mgmtbus_rebuild. monad_run. simpl.
  by rewrite Hhook.
Qed.

(** C3, as the code has it: out of the states an operation is allowed
    in, [checkpoint], [start], [stop] and [connect] raise an assertion
    error and change nothing, and [update] and [withdraw] return without
    an error and change nothing. *)
Theorem disallowed_operation (r : Run) (op : operation) :
  allowed op (state (ft (world r))) = false →
  match op with
  | OpUpdate _ _ _ | OpWithdraw _ _ _ => run_op op r = (Ok tt, r)
  | OpCheckpoint _ _ | OpStart | OpStop | OpConnect _ _ =>
      ∃ msg, run_op op r = (Raise (AssertionError msg), r)
  end.
Proof.
  intros Hno.
  destruct op as [s i v|s i v|s m| | |ins out]; simpl in Hno.
  - apply bool_decide_eq_false in Hno. by apply update_closed.
  - apply bool_decide_eq_false in Hno. by apply withdraw_closed.
  - apply bool_decide_eq_false in Hno.
    pose proof (data_path_closed _ Hno) as Hclosed.
    eexists. simpl. unfold checkpoint. monad_run.
    rewrite Hclosed. simpl. by rewrite run_eta.
  - apply bool_decide_eq_false in Hno.
    eexists. simpl. unfold start. monad_run.
    destruct (decide (state (ft (world r)) ≠ INIT)); [|done].
    by rewrite run_eta.
  - apply bool_decide_eq_false in Hno.
    eexists. simpl. unfold stop. monad_run.
    rewrite bool_decide_eq_false_2.
    + simpl. by rewrite run_eta.
    + rewrite !elem_of_cons, elem_of_nil. tauto.
  - apply bool_decide_eq_false in Hno.
    eexists. simpl. unfold connect. monad_run.
    destruct (decide (state (ft (world r)) ≠ READY)); [|done].
    by rewrite run_eta.
Qed.

End LifeCycle.

Section BaseHooks.
Context `{CM : ConditionModule}.

(** C8, as the code has it: with the [reset] and [rebuild] of [BaseFT],
    which do nothing, [mgmtbus_reset] and [mgmtbus_rebuild] answer 'OK'
    and leave the node in state INIT with its inputs-checkpoint map as it
    was; [connect], on a node in state READY, makes the map empty. *)
Theorem reset_and_rebuild_keep_inputs_checkpoint (r : Run) :
  (@mgmtbus_reset CM BaseFT_hooks r).1 = Ok "OK" ∧
  state (ft (world (@mgmtbus_reset CM BaseFT_hooks r).2)) = INIT ∧
  inputs_checkpoint (ft (world (@mgmtbus_reset CM BaseFT_hooks r).2)) =
    inputs_checkpoint (ft (world r)) ∧
  (@mgmtbus_rebuild CM BaseFT_hooks r).1 = Ok "OK" ∧
  state (ft (world (@mgmtbus_rebuild CM BaseFT_hooks r).2)) = INIT ∧
  inputs_checkpoint (ft (world (@mgmtbus_rebuild CM BaseFT_hooks r).2)) =
    inputs_checkpoint (ft (world r)) ∧
  @mgmtbus_reset CM BaseFT_hooks r =
    (Ok "OK",
     mkRun (with_ft (set_state INIT) (world r)) (calls r ++ [CallReset])) ∧
  @mgmtbus_rebuild CM BaseFT_hooks r =
    (Ok "OK",
     mkRun (with_ft (set_state INIT) (world r)) (calls r ++ [CallRebuild])) ∧
  (∀ (w : World) ins out,
     state (ft w) = READY →
     (connect ins out w).1 = Ok tt ∧
     inputs_checkpoint (ft (connect ins out w).2) = Some ∅).
Proof.
  assert (@mgmtbus_reset CM BaseFT_hooks r =
          (Ok "OK", mkRun (with_ft (set_state INIT) (world r))
                          (calls r ++ [CallReset]))) as Hreset
    by (by rewrite (@mgmtbus_reset_returns CM BaseFT_hooks r
                      (with_ft (set_state RESET) (world r)) eq_refl)).
  assert (@mgmtbus_rebuild CM BaseFT_hooks r =
          (Ok "OK", mkRun (with_ft (set_state INIT) (world r))
                          (calls r ++ [CallRebuild]))) as Hrebuild
    by (by rewrite (@mgmtbus_rebuild_returns CM BaseFT_hooks r
                      (with_ft (set_state REBUILDING) (world r)) eq_refl)).
  split_and!; try (by rewrite Hreset); try (by rewrite Hrebuild).
  intros w ins out Hst. by rewrite (connect_ready w ins out Hst).
Qed.

End BaseHooks.

(** ** The checkpoint store *)

Section CheckpointStore.
Context `{CM : ConditionModule}.

Lemma lstrip_id (l : list ascii) :
  (∀ c, head l = Some c → isspace c = false) → lstrip l = l.
Proof.
  destruct l as [|c l]; [done|]. intros Hh. simpl. by rewrite (Hh c).
Qed.

Lemma rstrip_id (l : list ascii) :
  (∀ c, last l = Some c → isspace c = false) → rstrip l = l.
Proof.
  induction l as [|c l IH]; [done|]. intros Hl. simpl.
  destruct l as [|c' l'].
  - simpl. by rewrite (Hl c).
  - rewrite IH; [done|]. intros x Hx. by apply Hl.
Qed.

Lemma strip_id (s : string) : no_outer_space s → strip s = s.
Proof.
  intros [Hh Hl]. unfold strip.
  rewrite lstrip_id, rstrip_id by done.
  apply string_of_list_ascii_of_string.
Qed.

Lemma read_checkpoint_present (w : World) (text : string) :
  files w !! chkp_path (ft w) = Some text →
  read_checkpoint w =
  (Ok tt, mkWorld (set_last_checkpoint (Some (strip text)) (ft w))
                  (delete (chkp_path (ft w)) (files w))
                  (wire w) (chassis_log w)).
Proof.
  intros Hfile. unfold read_checkpoint. monad_run. simpl.
  change (chkp_path (set_last_checkpoint None (ft w)))
    with (chkp_path (ft w)).
  by rewrite Hfile.
Qed.

Lemma read_checkpoint_absent (w : World) :
  files w !! chkp_path (ft w) = None →
  read_checkpoint w = (Ok tt, with_ft (set_last_checkpoint None) w).
Proof.
  intros Hfile. unfold read_checkpoint. monad_run. simpl.
  change (chkp_path (set_last_checkpoint None (ft w)))
    with (chkp_path (ft w)).
  by rewrite Hfile.
Qed.

(** The world a constructor starts [read_checkpoint] on. *)
Lemma BaseFT_init_present nm cfg fs wr lg text :
  fs !! (nm +:+ ".chkp") = Some text →
  BaseFT_init nm cfg fs wr lg =
  (Ok tt,
   mkWorld
     (mkBaseFT nm cfg (Filters_init (cfg_infilters cfg))
        (Filters_init (cfg_outfilters cfg)) [] None None
        (Some (strip text)) READY)
     (delete (nm +:+ ".chkp") fs) wr (lg ++ [MgmtbusChannel nm])).
Proof.
  intros Hfile. unfold BaseFT_init.
  erewrite bind_ok; [|by apply read_checkpoint_present]. done.
Qed.

Lemma BaseFT_init_absent nm cfg fs wr lg :
  fs !! (nm +:+ ".chkp") = None →
  BaseFT_init nm cfg fs wr lg =
  (Ok tt,
   mkWorld
     (mkBaseFT nm cfg (Filters_init (cfg_infilters cfg))
        (Filters_init (cfg_outfilters cfg)) [] None None None READY)
     fs wr (lg ++ [MgmtbusChannel nm])).
Proof.
  intros Hfile. unfold BaseFT_init.
  erewrite bind_ok; [|by apply read_checkpoint_absent]. done.
Qed.

(** C7: a marker without white space at either end, stored by
    [create_checkpoint], is what a node of the same name made afterwards
    has as [last_checkpoint]; making the node removes the file, and
    [mgmtbus_state_info] reports the marker. Without a checkpoint file,
    making the node gives no [last_checkpoint] and no error. *)
Theorem checkpoint_round_trip (w : World) (marker : string) (cfg : Config)
    (wr : list message) (lg : list chassis_request) :
  no_outer_space marker →
  let stored := (create_checkpoint marker w).2 in
  let boot := BaseFT_init (name (ft w)) cfg (files stored) wr lg in
  (create_checkpoint marker w).1 = Ok tt ∧
  boot.1 = Ok tt ∧
  last_checkpoint (ft boot.2) = Some marker ∧
  files boot.2 = delete (chkp_path (ft w)) (files stored) ∧
  files boot.2 !! chkp_path (ft boot.2) = None ∧
  (mgmtbus_state_info boot.2).1 =
    Ok {| si_checkpoint := Some marker;
          si_state := READY;
          si_is_source := true |} ∧
  (∀ nm fs,
     fs !! (nm +:+ ".chkp") = None →
     (BaseFT_init nm cfg fs wr lg).1 = Ok tt ∧
     last_checkpoint (ft (BaseFT_init nm cfg fs wr lg).2) = None ∧
     files (BaseFT_init nm cfg fs wr lg).2 = fs).
Proof.
  intros Hm stored boot.
  assert (files stored !! (name (ft w) +:+ ".chkp") = Some marker) as Hfile
    by apply lookup_insert_eq.
  subst boot. rewrite (BaseFT_init_present _ _ _ _ _ _ Hfile).
  rewrite (strip_id marker Hm). simpl.
  split_and!; try done.
  - apply lookup_delete_eq.
  - intros nm fs Habsent. by rewrite (BaseFT_init_absent _ _ _ _ _ Habsent).
Qed.

End CheckpointStore.

(** ** The fabric adapter *)

Section FabricFacts.
Variable CommState : Type.
Variable comm_send_rpc :
  string → string → record → bool → option Z → M CommState pyval.

(** What [Fabric.send_rpc] gives for what the transport gives: an
    exception goes through, an answer is replaced by [None]. *)
Lemma send_rpc_of_transport sftname dftname method params block timeout s :
  Fabric.send_rpc CommState comm_send_rpc sftname dftname method params
                  block timeout s =
  match Fabric.transport_answer CommState comm_send_rpc sftname dftname
          method params block timeout s with
  | (Ok _, s') => (Ok PyNone, s')
  | (Raise e, s') => (Raise e, s')
  end.
Proof. reflexivity. Qed.

Lemma send_rpc_answer_is_None sftname dftname method params block timeout
    s a :
  (Fabric.send_rpc CommState comm_send_rpc sftname dftname method params
                   block timeout s).1 = Ok a →
  a = PyNone.
Proof.
  rewrite send_rpc_of_transport.
  destruct (Fabric.transport_answer _ _ _ _ _ _ _ _ _) as [[x|e] s'];
    simpl; congruence.
Qed.

End FabricFacts.

(** C9, on a blocking call that the transport answers: the transport
    answers with a string, [Fabric.send_rpc] gives [None], and so does
    [do_rpc] through a chassis that gives what the fabric gives. *)
Theorem send_rpc_loses_the_answer :
  (Fabric.transport_answer nat echo_comm
     "C" "A" "length" ∅ true (Some 30%Z) 0).1 = Ok (PyStr "length") ∧
  (Fabric.send_rpc nat echo_comm
     "C" "A" "length" ∅ true (Some 30%Z) 0).1 = Ok PyNone ∧
  (do_rpc nat (Chassis_send_rpc nat echo_comm)
     (node_C STARTED (Some ∅)) "A" "length" true (Some 30%Z) ∅ 0).1
  = Ok PyNone.
Proof. by split_and!. Qed.

(** ** The claims on the examples *)

Lemma markers_A_agree : agrees markers_A "cp-7".
Proof.
  intros s v. unfold markers_A. rewrite lookup_singleton_Some.
  by intros [_ <-].
Defined.

Lemma markers_A_diverge : diverges markers_A "cp-8".
Proof. exists "A", "cp-7". by split. Defined.

Lemma cp3_no_outer_space : no_outer_space "cp-3".
Proof. split; intros c; vm_compute; by intros [= <-]. Defined.



(** C2 on divergent markers: [B] sends "cp-8" after [A] sent "cp-7". *)
Lemma checkpoint_divergence_is_fatal_witness :
  started_or_checkpoint (ft (world_C CHECKPOINT (Some markers_A))) ∧
  inputs_checkpoint (ft (world_C CHECKPOINT (Some markers_A)))
    = Some markers_A ∧
  checkpoint "B" "cp-8" (world_C CHECKPOINT (Some markers_A)) =
  (Raise (AssertionError "different checkpoint value received"),
   world_C CHECKPOINT (Some markers_A)).
Proof.
  assert (started_or_checkpoint (ft (world_C CHECKPOINT (Some markers_A))))
    as Hst by (by right).
  split_and!; [done|done|].
  apply (checkpoint_divergence_is_fatal (world_C CHECKPOINT (Some markers_A))
           "B" "cp-8" markers_A Hst eq_refl).
  apply markers_A_diverge.
Defined.

(** C3, as stated, fails: an update to a node in state INIT returns. *)
Lemma update_out_of_state_returns :
  allowed (OpUpdate "A" (Some "1.2.3.4") (Some ip_value))
          (state (ft (world (run_C INIT (Some ∅))))) = false ∧
  ¬ raises (@run_op PresenceConditions Forwarder
              (OpUpdate "A" (Some "1.2.3.4") (Some ip_value))
              (run_C INIT (Some ∅))).1.
Proof.
  split; [by vm_compute|].
  intros [e He]. vm_compute in He. discriminate He.
Qed.

(** C3, as the code has it, on [start] for a node in state IDLE. *)
Lemma disallowed_operation_witness :
  allowed OpStart (state (ft (world (run_C IDLE (Some markers_AB)))))
    = false ∧
  ∃ msg, @run_op PresenceConditions Forwarder OpStart
           (run_C IDLE (Some markers_AB)) =
         (Raise (AssertionError msg), run_C IDLE (Some markers_AB)).
Proof.
  split; [by vm_compute|].
  apply (@disallowed_operation PresenceConditions Forwarder
           (run_C IDLE (Some markers_AB)) OpStart).
  by vm_compute.
Defined.

(** C4 on an update that the in-filters of [C] accept: the subclass
    that forwards publishes it, without the underscore key. *)
Lemma update_dispatches_once_witness :
  started_or_checkpoint (ft (world (run_C CHECKPOINT (Some markers_A)))) ∧
  inputs_checkpoint (ft (world (run_C CHECKPOINT (Some markers_A))))
    = Some markers_A ∧
  markers_A !! "B" = None ∧
  calls (@update PresenceConditions Forwarder "B" (Some "1.2.3.4")
           (Some ip_value) (run_C CHECKPOINT (Some markers_A))).2 =
    [CallFilteredUpdate "B" (Some "1.2.3.4")
       (Some (strip_underscore ip_value))] ∧
  strip_underscore ip_value !! "_age" = None ∧
  strip_underscore ip_value !! "type" = Some (PyStr "IPv4") ∧
  wire (world (@update PresenceConditions Forwarder "B" (Some "1.2.3.4")
                 (Some ip_value) (run_C CHECKPOINT (Some markers_A))).2) =
    [mkMessage "C" "update"
       (IndicatorPayload (Some "1.2.3.4") (Some {["type" := PyStr "IPv4"]}))].
Proof.
  assert (started_or_checkpoint
            (ft (world (run_C CHECKPOINT (Some markers_A)))))
    as Hst by (by right).
  destruct (@update_dispatches_once PresenceConditions Forwarder
              (run_C CHECKPOINT (Some markers_A)) "B" (Some "1.2.3.4")
              (Some ip_value) markers_A Hst eq_refl eq_refl)
    as (Hstrip & _ & Hupd & _).
  destruct Hupd as (_ & Hworld & Hcalls); [by vm_compute|].
  split_and!; [done|done|done| | | |].
  - rewrite Hcalls. by vm_compute.
  - by rewrite (Hstrip "_age").
  - by rewrite (Hstrip "type").
  - rewrite Hworld. by vm_compute.
Defined.


(** C6 on an update and a withdraw to a node in state IDLE. *)
Lemma data_path_closed_is_silent_witness :
  ¬ started_or_checkpoint (ft (world (run_C IDLE (Some markers_AB)))) ∧
  @update PresenceConditions Forwarder "A" (Some "1.2.3.4") (Some ip_value)
    (run_C IDLE (Some markers_AB)) = (Ok tt, run_C IDLE (Some markers_AB)) ∧
  @withdraw PresenceConditions Forwarder "A" (Some "1.2.3.4") None
    (run_C IDLE (Some markers_AB)) = (Ok tt, run_C IDLE (Some markers_AB)).
Proof.
  assert (¬ started_or_checkpoint (ft (world (run_C IDLE (Some markers_AB)))))
    as Hst by (by intros [?|?]).
  split_and!; [done| |].
  - apply (@data_path_closed_is_silent PresenceConditions Forwarder
             (run_C IDLE (Some markers_AB)) "A" (Some "1.2.3.4")
             (Some ip_value) Hst).
  - apply (@data_path_closed_is_silent PresenceConditions Forwarder
             (run_C IDLE (Some markers_AB)) "A" (Some "1.2.3.4") None Hst).
Defined.

(** C7 on the marker "cp-3" of the node [C]. *)
Lemma checkpoint_round_trip_witness :
  no_outer_space "cp-3" ∧
  last_checkpoint
    (ft (@BaseFT_init PresenceConditions "C" (mkConfig [] [])
           (files (create_checkpoint "cp-3"
                     (world_C IDLE (Some markers_AB))).2) [] []).2)
  = Some "cp-3".
Proof.
  split; [apply cp3_no_outer_space|].
  apply (checkpoint_round_trip (world_C IDLE (Some markers_AB)) "cp-3"
           (mkConfig [] []) [] [] cp3_no_outer_space).
Defined.

(** C8, as stated, fails: the node [C], idle after the barrier "cp-7",
    still has both markers after [mgmtbus_reset] and after
    [mgmtbus_rebuild]. *)
Lemma reset_keeps_the_markers :
  (@mgmtbus_reset PresenceConditions BaseFT_hooks
     (run_C IDLE (Some markers_AB))).1 = Ok "OK" ∧
  inputs_checkpoint
    (ft (world (@mgmtbus_reset PresenceConditions BaseFT_hooks
                  (run_C IDLE (Some markers_AB))).2)) ≠ Some ∅ ∧
  (@mgmtbus_rebuild PresenceConditions BaseFT_hooks
     (run_C IDLE (Some markers_AB))).1 = Ok "OK" ∧
  inputs_checkpoint
    (ft (world (@mgmtbus_rebuild PresenceConditions BaseFT_hooks
                  (run_C IDLE (Some markers_AB))).2)) ≠ Some ∅.
Proof.
  split_and!; [done| |done|].
  - intros Heq. apply (f_equal (λ o, o ≫= (λ cp, cp !! "A"))) in Heq.
    vm_compute in Heq. discriminate Heq.
  - intros Heq. apply (f_equal (λ o, o ≫= (λ cp, cp !! "A"))) in Heq.
    vm_compute in Heq. discriminate Heq.
Qed.

(** C8, as the code has it, on [connect] for a node in state READY. *)
Lemma reset_and_rebuild_keep_inputs_checkpoint_witness :
  state (ft (world_C READY None)) = READY ∧
  inputs_checkpoint
    (ft (world (@mgmtbus_reset PresenceConditions BaseFT_hooks
                  (run_C IDLE (Some markers_AB))).2)) = Some markers_AB ∧
  state
    (ft (world (@mgmtbus_reset PresenceConditions BaseFT_hooks
                  (run_C IDLE (Some markers_AB))).2)) = INIT ∧
  inputs_checkpoint (ft (connect ["A"; "B"] true (world_C READY None)).2)
    = Some ∅.
Proof.
  destruct (@reset_and_rebuild_keep_inputs_checkpoint PresenceConditions
              (run_C IDLE (Some markers_AB)))
    as (_ & Hinit & Hreset & _ & _ & _ & _ & _ & Hconnect).
  split_and!; [done|by rewrite Hreset|by rewrite Hinit|].
  by apply (Hconnect (world_C READY None) ["A"; "B"] true).
Defined.

(** C10 on sources out of the state STARTED: one that is stopped, with an
    output, and one that is ready, without. *)
Lemma mgmtbus_checkpoint_out_of_state :
  (let after := mgmtbus_checkpoint "cp-1" (world_S STOPPED (Some "S")) in
   after.1 = Ok "OK" ∧ state (ft after.2) = IDLE ∧
   files after.2 !! "S.chkp" = Some "cp-1" ∧
   last_checkpoint (ft after.2) = Some "cp-1" ∧
   wire after.2 = [mkMessage "S" "checkpoint" (CheckpointPayload "cp-1")]) ∧
  (let after := mgmtbus_checkpoint "cp-1" (world_S READY None) in
   after.1 = Ok "OK" ∧ state (ft after.2) = IDLE ∧
   files after.2 !! "S.chkp" = Some "cp-1" ∧
   last_checkpoint (ft after.2) = Some "cp-1" ∧
   wire after.2 = []).
Proof. by vm_compute. Qed.

(** * Further properties of the code *)

(** ** Building and applying the filters *)

Section FilterChain.
Context `{CM : ConditionModule}.

Lemma Filters_init_from (built : list Filter) (fs : list RawFilter) :
  foldl (λ built f,
           built ++
           [ {| fname := default ("filter_" +:+ pretty (List.length built))
                                 (raw_name f);
                conditions := map Condition_init (raw_conditions f);
                actions := raw_actions f |} ])
        built fs =
  built ++ imap (λ i, built_filter (List.length built + i)) fs.
Proof.
  revert built. induction fs as [|f fs IH]; intros built; simpl.
  - by rewrite app_nil_r.
  - rewrite IH, <- app_assoc. f_equal. simpl.
    rewrite Nat.add_0_r. f_equal. apply imap_ext. intros i x _. simpl.
    rewrite length_app. simpl. f_equal. lia.
Qed.

(** The filters are built in the order of the configuration; the filter
    at position [k] keeps its name, or is named [filter_k] when it has
    none; its conditions are built in order and its actions are kept. *)
Theorem Filters_init_by_position (fs : list RawFilter) :
  Filters_init fs = imap built_filter fs.
Proof. unfold Filters_init. by rewrite Filters_init_from. Qed.

Lemma accepted_is_delete (indicator : option string) (value : option record) :
  (λ _ : record, delete "_indicator" (evaluated_record indicator value))
    <$> value = delete "_indicator" <$> value.
Proof.
  destruct value as [v|]; simpl; [|done].
  unfold evaluated_record. simpl. by rewrite delete_insert_eq.
Qed.

Lemma Filters_apply_cases fs indicator value :
  Filters_apply fs indicator value =
  if chain_drops fs (evaluated_record indicator value)
  then (None, None)
  else (indicator, delete "_indicator" <$> value).
Proof. by rewrite Filters_apply_verdict, accepted_is_delete. Qed.

(** Whatever the filters and the conditions, [apply] either drops the
    record or gives back the indicator it was given and the value it was
    given, less the key [_indicator]: no other attribute is added, removed
    or changed, and a key [_indicator] of the caller is lost. *)
Theorem Filters_apply_drops_or_keeps fs indicator value :
  Filters_apply fs indicator value = (None, None) ∨
  Filters_apply fs indicator value =
    (indicator, delete "_indicator" <$> value).
Proof.
  rewrite Filters_apply_cases. destruct (chain_drops _ _); auto.
Qed.

Lemma conditions_hold_from (b : bool) (conds : list Condition) d :
  foldl (λ r c, r && Condition_eval c d) b conds =
  b && forallb (λ c, Condition_eval c d) conds.
Proof.
  revert b. induction conds as [|c conds IH]; intros b; simpl.
  - by rewrite andb_true_r.
  - by rewrite IH, andb_assoc.
Qed.

(** The conditions of a filter are a conjunction: the filter matches
    exactly when every condition evaluates to true; without conditions it
    matches every record. *)
Theorem conditions_hold_all (conds : list Condition) (d : record) :
  conditions_hold conds d = true ↔
  ∀ c, c ∈ conds → Condition_eval c d = true.
Proof.
  unfold conditions_hold. rewrite conditions_hold_from. simpl.
  rewrite forallb_forall. split.
  - intros Hall c Hc. by apply Hall, list_elem_of_In.
  - intros Hall c Hc. by apply Hall, list_elem_of_In.
Qed.

Lemma not_terminal_eqb (a : string) :
  ¬ terminal a →
  String.eqb a "accept" = false ∧ String.eqb a "drop" = false.
Proof.
  intros Ha. split; apply String.eqb_neq; intros ->; apply Ha;
    [by left|by right].
Qed.

Lemma first_terminal_none (acts : list string) :
  (∀ a, a ∈ acts → ¬ terminal a) → first_terminal acts = None.
Proof.
  induction acts as [|a acts IH]; intros Hno; simpl; [done|].
  destruct (not_terminal_eqb a) as [-> ->]; [apply Hno; by left|].
  apply IH. intros b Hb. apply Hno. by right.
Qed.

Lemma first_terminal_after (pre post : list string) (a : string) :
  (∀ x, x ∈ pre → ¬ terminal x) →
  first_terminal (pre ++ a :: post) = first_terminal (a :: post).
Proof.
  induction pre as [|x pre IH]; intros Hno; [done|].
  change ((x :: pre) ++ a :: post) with (x :: (pre ++ a :: post)).
  cbn [first_terminal].
  destruct (not_terminal_eqb x) as [-> ->]; [apply Hno; by left|].
  apply IH. intros y Hy. apply Hno. by right.
Qed.

Lemma chain_drops_passed_over (skipped rest : list Filter) d :
  (∀ f, f ∈ skipped → passed_over f d) →
  chain_drops (skipped ++ rest) d = chain_drops rest d.
Proof.
  induction skipped as [|f skipped IH]; intros Hskip; [done|].
  simpl. rewrite IH by (intros g Hg; apply Hskip; by right).
  destruct (Hskip f) as [->|Hacts]; [by left|done|].
  rewrite (first_terminal_none _ Hacts).
  by destruct (negb _).
Qed.

(** A chain in which every filter is passed over (a condition fails, or
    no action is [accept] or [drop]) accepts; so does the empty chain. *)
Theorem Filters_apply_default_accept fs indicator value :
  (∀ f, f ∈ fs → passed_over f (evaluated_record indicator value)) →
  Filters_apply fs indicator value =
  (indicator, delete "_indicator" <$> value).
Proof.
  intros Hskip. rewrite Filters_apply_cases.
  rewrite <- (app_nil_r fs), (chain_drops_passed_over fs [] _ Hskip).
  done.
Qed.

(** The first filter that matches and has an [accept] or a [drop] among
    its actions decides, by the first such action; the filters before it
    that are passed over, the actions before and after it and the filters
    after it do not count. *)
Theorem Filters_apply_first_match (skipped rest : list Filter) (f : Filter)
    (pre post : list string) (a : string) indicator value :
  (∀ g, g ∈ skipped →
        passed_over g (evaluated_record indicator value)) →
  conditions_hold (conditions f) (evaluated_record indicator value) = true →
  actions f = pre ++ a :: post →
  (∀ x, x ∈ pre → ¬ terminal x) →
  (a = "drop" →
     Filters_apply (skipped ++ f :: rest) indicator value = (None, None)) ∧
  (a = "accept" →
     Filters_apply (skipped ++ f :: rest) indicator value =
     (indicator, delete "_indicator" <$> value)).
Proof.
  intros Hskip Hf Hacts Hpre.
  rewrite Filters_apply_cases, (chain_drops_passed_over _ _ _ Hskip).
  simpl. rewrite Hf, Hacts, (first_terminal_after _ _ _ Hpre). simpl.
  split; intros ->; done.
Qed.

End FilterChain.

(** ** Stripping, emitting, and the guards of the data path *)

Section DataPathMore.
Context `{CM : ConditionModule}.

(** The loop that pops the underscore keys removes every attribute whose
    name begins with an underscore and keeps every other attribute with
    its value; doing it twice is doing it once, and it changes nothing
    exactly on the values without such a key. *)
Theorem strip_underscore_keeps_the_rest (v : record) :
  (∀ k, strip_underscore v !! k =
        if startswith "_" k then None else v !! k) ∧
  strip_underscore (strip_underscore v) = strip_underscore v ∧
  (strip_underscore v = v ↔
   ∀ k, is_Some (v !! k) → startswith "_" k = false).
Proof.
  split; [apply strip_underscore_lookup|]. split.
  - apply map_eq. intros k. rewrite !strip_underscore_lookup.
    by destruct (startswith "_" k).
  - split.
    + intros Heq k [x Hx]. rewrite <- Heq, strip_underscore_lookup in Hx.
      by destruct (startswith "_" k).
    + intros Hclean. apply map_eq. intros k.
      rewrite strip_underscore_lookup.
      destruct (startswith "_" k) eqn:Hk; [|done].
      destruct (v !! k) eqn:E; [|done].
      rewrite Hclean in Hk; [done|]. by rewrite E.
Qed.

Lemma emit_filtered_outcome (tp : string) indicator value (w : World) :
  emit_filtered tp indicator value w =
  (Ok tt,
   match output (ft w), (apply_outfilters (ft w) indicator value).1 with
   | Some ch, Some _ =>
       set_wire (wire w ++
                 [mkMessage ch tp
                    (IndicatorPayload indicator
                                      (delete "_indicator" <$> value))]) w
   | _, _ => w
   end).
Proof.
  unfold emit_filtered, apply_outfilters. monad_run.
  destruct (output (ft w)) as [ch|]; [|done].
  rewrite Filters_apply_cases.
  destruct (chain_drops _ _); [done|]. simpl.
  by destruct indicator.
Qed.

(** [emit_update] and [emit_withdraw] never raise and never touch the
    node, the files or the chassis. They publish one message, with the
    indicator and the value they were given (less the key [_indicator]),
    when the node has an output and the out-filters give an indicator;
    they publish nothing otherwise. *)
Theorem emit_publishes_what_passes indicator value (w : World) :
  emit_update indicator value w =
  (Ok tt,
   match output (ft w), (apply_outfilters (ft w) indicator value).1 with
   | Some ch, Some _ =>
       set_wire (wire w ++
                 [mkMessage ch "update"
                    (IndicatorPayload indicator
                                      (delete "_indicator" <$> value))]) w
   | _, _ => w
   end) ∧
  emit_withdraw indicator value w =
  (Ok tt,
   match output (ft w), (apply_outfilters (ft w) indicator value).1 with
   | Some ch, Some _ =>
       set_wire (wire w ++
                 [mkMessage ch "withdraw"
                    (IndicatorPayload indicator
                                      (delete "_indicator" <$> value))]) w
   | _, _ => w
   end).
Proof. split; apply emit_filtered_outcome. Qed.

Context `{H : !Hooks}.

Lemma update_checkpointed_source (r : Run) source indicator value cp :
  started_or_checkpoint (ft (world r)) →
  inputs_checkpoint (ft (world r)) = Some cp →
  is_Some (cp !! source) →
  update source indicator value r =
    (Raise (AssertionError "update recevied from checkpointed source"), r).
Proof.
  intros Hst Hcp Hsrc. apply data_path_open_spec in Hst.
  unfold update, M_bind, lift, self, gets, get_inputs_checkpoint. simpl.
  rewrite Hst. simpl. unfold M_bind, M_ret, gets. simpl.
  rewrite Hcp. simpl. rewrite run_eta.
  by destruct (decide (is_Some (cp !! source))).
Qed.

Lemma withdraw_checkpointed_source (r : Run) source indicator value cp :
  started_or_checkpoint (ft (world r)) →
  inputs_checkpoint (ft (world r)) = Some cp →
  is_Some (cp !! source) →
  withdraw source indicator value r =
    (Raise (AssertionError "withdraw recevied from checkpointed source"), r).
Proof.
  intros Hst Hcp Hsrc. apply data_path_open_spec in Hst.
  unfold withdraw, M_bind, lift, self, gets, get_inputs_checkpoint. simpl.
  rewrite Hst. simpl. unfold M_bind, M_ret, gets. simpl.
  rewrite Hcp. simpl. rewrite run_eta.
  by destruct (decide (is_Some (cp !! source))).
Qed.

(** An update or a withdraw from a source that has sent its checkpoint
    raises an assertion error; no subclass method is called and nothing
    changes. *)
Theorem checkpointed_source_is_fatal (r : Run) source indicator value cp :
  started_or_checkpoint (ft (world r)) →
  inputs_checkpoint (ft (world r)) = Some cp →
  is_Some (cp !! source) →
  update source indicator value r =
    (Raise (AssertionError "update recevied from checkpointed source"), r) ∧
  withdraw source indicator value r =
    (Raise (AssertionError "withdraw recevied from checkpointed source"), r).
Proof.
  intros Hst Hcp Hsrc. split.
  - by apply (update_checkpointed_source r source indicator value cp).
  - by apply (withdraw_checkpointed_source r source indicator value cp).
Qed.

(** A withdraw that passes the guards is handed to [filtered_withdraw],
    once, with the indicator of the call and the value of the call
    without its underscore keys; the in-filters are not consulted, so a
    record they would drop is withdrawn all the same. *)
Theorem withdraw_is_not_filtered (r : Run) source indicator value cp :
  started_or_checkpoint (ft (world r)) →
  inputs_checkpoint (ft (world r)) = Some cp →
  cp !! source = None →
  withdraw source indicator value r =
    invoke (CallFilteredWithdraw source indicator (strip_underscore <$> value))
           (filtered_withdraw source indicator (strip_underscore <$> value))
           r ∧
  calls (withdraw source indicator value r).2 =
    calls r ++
    [CallFilteredWithdraw source indicator (strip_underscore <$> value)].
Proof.
  intros Hst Hcp Hsrc.
  pose proof (withdraw_past_guards r source indicator value cp Hst Hcp Hsrc)
    as Hw. cbv zeta in Hw.
  split; [done|]. rewrite Hw. apply calls_invoke.
Qed.

End DataPathMore.

Section Abstract.
Context `{CM : ConditionModule}.

(** [BaseFT] alone processes no data: with its own [filtered_update] and
    [filtered_withdraw], an update or a withdraw that passes the guards
    ends in a [NotImplementedError] that names the node, with the world
    unchanged; so do the four queries. *)
Theorem BaseFT_is_abstract (r : Run) source indicator value cp :
  started_or_checkpoint (ft (world r)) →
  inputs_checkpoint (ft (world r)) = Some cp →
  cp !! source = None →
  (∃ h msg,
     @update CM BaseFT_hooks source indicator value r =
       (Raise (NotImplementedError msg), mkRun (world r) (calls r ++ [h])) ∧
     (msg = name (ft (world r)) +:+ ": update" ∨
      msg = name (ft (world r)) +:+ ": withdraw")) ∧
  @withdraw CM BaseFT_hooks source indicator value r =
    (Raise (NotImplementedError (name (ft (world r)) +:+ ": withdraw")),
     mkRun (world r)
       (calls r ++
        [CallFilteredWithdraw source indicator
           (strip_underscore <$> value)])) ∧
  (∀ (w : World) s i a b,
     Query.get s i w =
       (Raise (NotImplementedError
                 (name (ft w) +:+ ": get - not implemented")), w) ∧
     Query.get_all s w =
       (Raise (NotImplementedError
                 (name (ft w) +:+ ": get_all - not implemented")), w) ∧
     Query.get_range s i a b w =
       (Raise (NotImplementedError
                 (name (ft w) +:+ ": get_range - not implemented")), w) ∧
     Query.length s w =
       (Raise (NotImplementedError
                 (name (ft w) +:+ ": length - not implemented")), w)).
Proof.
  intros Hst Hcp Hsrc. split_and!.
  - rewrite (@update_past_guards CM BaseFT_hooks r source indicator value cp
               Hst Hcp Hsrc). cbv zeta.
    destruct (apply_infilters _ _ _) as [[i|] v]; simpl.
    + eexists _, _. split; [reflexivity|by left].
    + eexists _, _. split; [reflexivity|by right].
  - by rewrite (@withdraw_past_guards CM BaseFT_hooks r source indicator value
                  cp Hst Hcp Hsrc).
  - done.
Qed.

End Abstract.

(** ** Runs of the barrier *)

Section BarrierRuns.
Context `{CM : ConditionModule}.

Lemma markers_from_lookup (cp : gmap string string) srcs m s :
  markers_from cp srcs m !! s =
  if decide (s ∈ srcs) then Some m else cp !! s.
Proof.
  revert cp. induction srcs as [|x srcs IH]; intros cp; simpl.
  - destruct (decide (s ∈ [])) as [Hin|_]; [|done].
    by apply elem_of_nil in Hin.
  - unfold markers_from in *. simpl. rewrite IH.
    destruct (decide (s ∈ srcs)) as [Hin|Hnin].
    + rewrite decide_True; [done|]. by right.
    + destruct (decide (s = x)) as [->|Hne].
      * rewrite decide_True by (by left). apply lookup_insert_eq.
      * rewrite decide_False.
        -- by rewrite lookup_insert_ne.
        -- rewrite elem_of_cons. tauto.
Qed.

(** The deliveries of [m] by new, distinct sources, to a node that agrees
    with [m] so far and can take that many. *)
Lemma deliver_from (srcs : list string) (m : string) (w : World)
    (cp : gmap string string) :
  started_or_checkpoint (ft w) →
  inputs_checkpoint (ft w) = Some cp →
  agrees cp m →
  NoDup srcs →
  (∀ s, s ∈ srcs → cp !! s = None) →
  srcs ≠ [] →
  (size cp + length srcs ≤ length (inputs (ft w)))%nat →
  deliver srcs m w =
  (Ok tt,
   if decide (size cp + length srcs = length (inputs (ft w)))
   then quiesced
          (set_inputs_checkpoint (Some (markers_from cp srcs m)) (ft w)) m w
   else mkWorld
          (set_state CHECKPOINT
             (set_inputs_checkpoint (Some (markers_from cp srcs m)) (ft w)))
          (files w) (wire w) (chassis_log w)).
Proof.
  revert w cp.
  induction srcs as [|s rest IH]; intros w cp Hst Hcp Ha Hnd Hnew Hne Hk;
    [done|].
  apply NoDup_cons in Hnd as [Hs Hnd].
  assert (cp !! s = None) as Hfresh by (apply Hnew; by left).
  pose proof (map_size_insert_None s m cp Hfresh) as Hsize.
  pose proof (checkpoint_agreeing w s m cp Hst Hcp Ha) as Hrun.
  cbv zeta in Hrun. simpl in Hk.
  unfold deliver. simpl. unfold M_bind at 1. rewrite Hrun, Hsize.
  destruct rest as [|s' rest'].
  - simpl. unfold M_ret.
    destruct (decide (S (size cp) ≠ length (inputs (ft w)))) as [Hlt|Heq];
      destruct (decide (size cp + 1 = length (inputs (ft w))));
      try lia; done.
  - rewrite decide_True by (simpl in Hk; lia).
    set (w1 := mkWorld
                 (set_state CHECKPOINT
                    (set_inputs_checkpoint (Some (<[s:=m]> cp)) (ft w)))
                 (files w) (wire w) (chassis_log w)).
    assert (deliver (s' :: rest') m w1 =
            (Ok tt,
             if decide (size (<[s:=m]> cp) + length (s' :: rest') =
                        length (inputs (ft w1)))
             then quiesced
                    (set_inputs_checkpoint
                       (Some (markers_from (<[s:=m]> cp) (s' :: rest') m))
                       (ft w1)) m w1
             else mkWorld
                    (set_state CHECKPOINT
                       (set_inputs_checkpoint
                          (Some (markers_from (<[s:=m]> cp) (s' :: rest') m))
                          (ft w1)))
                    (files w1) (wire w1) (chassis_log w1))) as Hrest.
    { apply IH; try done.
      - by right.
      - by apply agrees_insert.
      - intros x Hx. rewrite lookup_insert_ne; [apply Hnew; by right|].
        intros ->. by apply Hs.
      - rewrite Hsize. simpl. simpl in Hk. lia. }
    unfold deliver in Hrest. rewrite Hrest. f_equal.
    rewrite Hsize. simpl.
    destruct (decide (S (size cp + S (length rest')) =
                      length (inputs (ft w))));
      destruct (decide (size cp + S (S (length rest')) =
                        length (inputs (ft w))));
      try lia; done.
Qed.

(** A barrier, run from the start: when [m] is delivered by distinct
    sources to a started node with an empty inputs-checkpoint map, the
    node stays in CHECKPOINT, with nothing written or published, while
    the sources are fewer than its inputs; with as many sources as inputs
    it ends in IDLE, [m] on disk and in [last_checkpoint], and one
    checkpoint published on the output when there is one. The map then
    holds [m] for exactly these sources. *)
Theorem barrier_run (w : World) (srcs : list string) (m : string) :
  started_or_checkpoint (ft w) →
  inputs_checkpoint (ft w) = Some ∅ →
  NoDup srcs →
  srcs ≠ [] →
  (length srcs ≤ length (inputs (ft w)))%nat →
  deliver srcs m w =
    (Ok tt,
     if decide (length srcs = length (inputs (ft w)))
     then mkWorld
            (set_last_checkpoint (Some m)
               (set_state IDLE
                  (set_inputs_checkpoint (Some (markers_from ∅ srcs m))
                                         (ft w))))
            (<[chkp_path (ft w) := m]> (files w))
            (wire w ++ checkpoint_messages (ft w) m)
            (chassis_log w)
     else mkWorld
            (set_state CHECKPOINT
               (set_inputs_checkpoint (Some (markers_from ∅ srcs m)) (ft w)))
            (files w) (wire w) (chassis_log w)) ∧
  (∀ s, markers_from ∅ srcs m !! s =
        if decide (s ∈ srcs) then Some m else None).
Proof.
  intros Hst Hcp Hnd Hne Hk. split.
  - assert (agrees ∅ m) as Ha by (by intros s v).
    assert (size (∅ : gmap string string) + length srcs
            ≤ length (inputs (ft w)))%nat as Hroom
      by (rewrite map_size_empty; simpl; lia).
    rewrite (deliver_from srcs m w ∅ Hst Hcp Ha Hnd (λ s _, lookup_empty s)
               Hne Hroom).
    rewrite map_size_empty. simpl.
    by destruct (decide (length srcs = length (inputs (ft w)))).
  - intros s. by rewrite markers_from_lookup, lookup_empty.
Qed.

(** The same marker sent again by a source that has sent it, before the
    barrier is complete, is accepted and changes nothing. *)
Theorem checkpoint_again_changes_nothing (w : World) source m cp :
  state (ft w) = CHECKPOINT →
  inputs_checkpoint (ft w) = Some cp →
  agrees cp m →
  cp !! source = Some m →
  size cp ≠ length (inputs (ft w)) →
  checkpoint source m w = (Ok tt, w).
Proof.
  intros Hst Hcp Ha Hsrc Hsize.
  rewrite (checkpoint_agreeing w source m cp); [|by right|done|done].
  cbv zeta. rewrite (insert_id cp source m Hsrc).
  rewrite decide_True by done. f_equal.
  destruct w as [n fs wr lg]. destruct n. simpl in *. by subst.
Qed.

(** A node without inputs never completes a barrier through
    [checkpoint]: whatever its map, a checkpoint that agrees with it is
    recorded and leaves the node in CHECKPOINT, with nothing written or
    published. *)
Theorem checkpoint_without_inputs (w : World) source m cp :
  inputs (ft w) = [] →
  started_or_checkpoint (ft w) →
  inputs_checkpoint (ft w) = Some cp →
  agrees cp m →
  checkpoint source m w =
  (Ok tt,
   mkWorld
     (set_state CHECKPOINT
        (set_inputs_checkpoint (Some (<[source := m]> cp)) (ft w)))
     (files w) (wire w) (chassis_log w)).
Proof.
  intros Hin Hst Hcp Ha.
  rewrite (checkpoint_agreeing w source m cp Hst Hcp Ha). cbv zeta.
  rewrite decide_True; [done|]. rewrite Hin. simpl.
  intros Hz. apply map_size_empty_inv in Hz.
  by apply insert_non_empty in Hz.
Qed.

End BarrierRuns.

(** ** After the barrier, and around the hooks *)

Section Quiescence.
Context `{CM : ConditionModule} `{H : !Hooks}.

Lemma lift_start_init (r : Run) :
  state (ft (world r)) = INIT →
  lift start r =
  (Ok tt, mkRun (with_ft (set_state STARTED) (world r)) (calls r)).
Proof.
  intros Hst. unfold start. monad_run. rewrite Hst. simpl.
  by destruct (decide (INIT ≠ INIT)).
Qed.

(** Once a checkpoint completes the barrier, the node is quiet: every
    update and every withdraw returns without calling a subclass method
    and without any effect, every further checkpoint raises an assertion
    error, and [stop] takes the node to STOPPED. *)
Theorem barrier_quiesces (w : World) source m cp :
  started_or_checkpoint (ft w) →
  inputs_checkpoint (ft w) = Some cp →
  agrees cp m →
  size (<[source := m]> cp) = length (inputs (ft w)) →
  (∀ log s i v,
     update s i v (mkRun (checkpoint source m w).2 log) =
       (Ok tt, mkRun (checkpoint source m w).2 log) ∧
     withdraw s i v (mkRun (checkpoint source m w).2 log) =
       (Ok tt, mkRun (checkpoint source m w).2 log)) ∧
  (∀ s' m',
     checkpoint s' m' (checkpoint source m w).2 =
     (Raise (AssertionError
               "checkpoint received with state not STARTED or CHECKPOINT"),
      (checkpoint source m w).2)) ∧
  stop (checkpoint source m w).2 =
    (Ok tt, with_ft (set_state STOPPED) (checkpoint source m w).2).
Proof.
  intros Hst Hcp Ha Hk.
  rewrite (checkpoint_agreeing w source m cp Hst Hcp Ha). cbv zeta.
  rewrite decide_False by (intros Hne; by apply Hne). simpl.
  split_and!.
  - intros log s i v.
    assert (¬ started_or_checkpoint
                (ft (world (mkRun
                   (quiesced (set_inputs_checkpoint
                                (Some (<[source:=m]> cp)) (ft w)) m w) log))))
      as Hidle by (by intros [?|?]).
    split; [by apply update_closed|by apply withdraw_closed].
  - intros s' m'. unfold checkpoint. monad_run. simpl. done.
  - unfold stop. monad_run. simpl. done.
Qed.

(** A reset that comes after checkpoints leaves the sources that sent
    them shut out: with a [reset] hook that does nothing, after
    [mgmtbus_reset] and [start] the inputs-checkpoint map is as before,
    so an update from such a source raises, and so does a checkpoint with
    another marker. *)
Theorem reset_keeps_sources_shut_out (r : Run) source indicator value cp v :
  (∀ w, reset w = (Ok tt, w)) →
  inputs_checkpoint (ft (world r)) = Some cp →
  cp !! source = Some v →
  (mgmtbus_reset ;;; lift start ;;; update source indicator value) r =
    (Raise (AssertionError "update recevied from checkpointed source"),
     mkRun (with_ft (set_state STARTED) (world r))
           (calls r ++ [CallReset])) ∧
  (∀ s' m',
     m' ≠ v →
     (mgmtbus_reset ;;; lift start ;;; lift (checkpoint s' m')) r =
     (Raise (AssertionError "different checkpoint value received"),
      mkRun (with_ft (set_state STARTED) (world r))
            (calls r ++ [CallReset]))).
Proof.
  intros Hreset Hcp Hsrc.
  pose proof (mgmtbus_reset_returns r _ (Hreset _)) as Hr.
  set (r1 := mkRun (with_ft (set_state INIT)
                      (with_ft (set_state RESET) (world r)))
                   (calls r ++ [CallReset])) in Hr.
  pose proof (lift_start_init r1 eq_refl) as Hs.
  set (r2 := mkRun (with_ft (set_state STARTED) (world r1)) (calls r1)) in Hs.
  assert (started_or_checkpoint (ft (world r2))) as Hst by (by left).
  split.
  - rewrite (bind_ok _ _ r "OK" r1 Hr), (bind_ok _ _ r1 tt r2 Hs).
    rewrite (update_checkpointed_source r2 source indicator value cp Hst);
      [done|by simpl|by rewrite Hsrc].
  - intros s' m' Hm.
    rewrite (bind_ok _ _ r "OK" r1 Hr), (bind_ok _ _ r1 tt r2 Hs).
    unfold lift.
    rewrite (checkpoint_diverging (world r2) s' m' cp Hst); [done|by simpl|].
    by exists source, v.
Qed.

(** When the [reset] or the [rebuild] of the subclass raises, the
    exception goes through [mgmtbus_reset] or [mgmtbus_rebuild] and the
    state is not set back to INIT: the node is as the hook left it. *)
Theorem failing_hook_is_not_recovered (r : Run) (e : exn) (w' : World) :
  (reset (with_ft (set_state RESET) (world r)) = (Raise e, w') →
   mgmtbus_reset r = (Raise e, mkRun w' (calls r ++ [CallReset]))) ∧
  (rebuild (with_ft (set_state REBUILDING) (world r)) = (Raise e, w') →
   mgmtbus_rebuild r = (Raise e, mkRun w' (calls r ++ [CallRebuild]))).
Proof.
  split; intros Hhook.
  - unfold mgmtbus_reset. monad_run. simpl. by rewrite Hhook.
  - unfold mgmtbus_rebuild. monad_run. simpl. by rewrite Hhook.
Qed.

End Quiescence.

(** ** Making a node, and the checkpoint file *)

Section Boot.
Context `{CM : ConditionModule}.

Lemma BaseFT_init_any nm cfg (fs : gmap string string) wr lg :
  BaseFT_init nm cfg fs wr lg =
  (Ok tt,
   mkWorld
     (mkBaseFT nm cfg (Filters_init (cfg_infilters cfg))
        (Filters_init (cfg_outfilters cfg)) [] None None
        (strip <$> fs !! (nm +:+ ".chkp")) READY)
     (delete (nm +:+ ".chkp") fs) wr (lg ++ [MgmtbusChannel nm])).
Proof.
  destruct (fs !! (nm +:+ ".chkp")) as [text|] eqn:Hfile.
  - by rewrite (BaseFT_init_present nm cfg fs wr lg text Hfile).
  - rewrite (BaseFT_init_absent nm cfg fs wr lg Hfile).
    by rewrite (delete_id fs _ Hfile).
Qed.

(** A node that is made, connected, initialized and started, in this
    order, is in state STARTED with the inputs it was connected to, an
    empty inputs-checkpoint map, an output exactly when one was asked
    for, and as [last_checkpoint] the trimmed content of its checkpoint
    file, which is removed; the chassis was asked for the management
    channel, one subscription per input in order, the pub channel when an
    output was asked for, and the RPC channel. No step raises. *)
Theorem boot_starts_the_node nm cfg (fs : gmap string string) wr lg ins out :
  boot nm cfg fs wr lg ins out =
  (Ok tt,
   mkWorld
     (mkBaseFT nm cfg (Filters_init (cfg_infilters cfg))
        (Filters_init (cfg_outfilters cfg)) ins
        (if out then Some nm else None) (Some ∅)
        (strip <$> fs !! (nm +:+ ".chkp")) STARTED)
     (delete (nm +:+ ".chkp") fs) wr
     (lg ++ [MgmtbusChannel nm] ++
      map (λ i, SubChannel nm i sub_methods) ins ++
      (if out then [PubChannel nm] else []) ++
      [RpcChannel nm rpc_methods])).
Proof.
  unfold boot. rewrite BaseFT_init_any.
  erewrite bind_ok; [|by apply connect_ready].
  unfold mgmtbus_initialize, start. monad_run. simpl.
  by rewrite <- app_assoc.
Qed.

(** [connect] works once: after a [connect] that succeeded, a second one
    raises an assertion error and changes nothing. *)
Theorem connect_only_once (w : World) ins out ins' out' :
  state (ft w) = READY →
  (connect ins out w).1 = Ok tt ∧
  connect ins' out' (connect ins out w).2 =
    (Raise (AssertionError "connect called in non ready FT"),
     (connect ins out w).2).
Proof.
  intros Hst. rewrite (connect_ready w ins out Hst). simpl.
  split; [done|]. unfold connect. monad_run. simpl. done.
Qed.

(** Reading the checkpoint is a handoff that works once: a second
    [read_checkpoint] finds no file and forgets the marker the first one
    read. *)
Theorem read_checkpoint_twice_forgets (w : World) :
  (read_checkpoint ;;; read_checkpoint) w =
  (Ok tt,
   mkWorld (set_last_checkpoint None (ft w))
           (delete (chkp_path (ft w)) (files w)) (wire w) (chassis_log w)).
Proof.
  destruct (files w !! chkp_path (ft w)) as [text|] eqn:Hfile.
  - rewrite (bind_ok _ _ w tt _ (read_checkpoint_present w text Hfile)).
    rewrite read_checkpoint_absent by apply lookup_delete_eq. done.
  - rewrite (bind_ok _ _ w tt _ (read_checkpoint_absent w Hfile)).
    rewrite read_checkpoint_absent by done.
    unfold with_ft. simpl. by rewrite (delete_id _ _ Hfile).
Qed.

Lemma lstrip_head (l : list ascii) c :
  head (lstrip l) = Some c → isspace c = false.
Proof.
  induction l as [|x l IH]; simpl; [done|].
  destruct (isspace x) eqn:Hx; [done|]. simpl. by intros [= <-].
Qed.

Lemma rstrip_head (l : list ascii) c :
  (∀ x, head l = Some x → isspace x = false) →
  head (rstrip l) = Some c → isspace c = false.
Proof.
  destruct l as [|x l]; simpl; [done|]. intros Hh.
  destruct (rstrip l); [rewrite (Hh x eq_refl)|]; simpl;
    intros [= <-]; by apply Hh.
Qed.

Lemma rstrip_last (l : list ascii) c :
  last (rstrip l) = Some c → isspace c = false.
Proof.
  induction l as [|x l IH]; simpl; [done|].
  destruct (rstrip l) as [|k ks].
  - destruct (isspace x) eqn:Hx; [done|]. simpl. by intros [= <-].
  - done.
Qed.

Lemma lstrip_spaces (l : list ascii) :
  Forall (λ c, isspace c = true) l → lstrip l = [].
Proof.
  induction 1 as [|c l Hc _ IH]; simpl; [done|]. by rewrite Hc.
Qed.

Lemma strip_trimmed (s : string) : no_outer_space (strip s).
Proof.
  unfold no_outer_space, strip. simpl.
  rewrite list_ascii_of_string_of_list_ascii. split.
  - intros c. apply rstrip_head. intros x. apply lstrip_head.
  - intros c. apply rstrip_last.
Qed.

(** What a node recovers from its checkpoint file is the content without
    the white space at its ends: the marker recovered has no white space
    at either end, trimming it again changes nothing, and a file that
    holds only white space gives the empty marker, not an absent one. *)
Theorem recovered_marker_is_trimmed (w : World) (text : string) :
  files w !! chkp_path (ft w) = Some text →
  last_checkpoint (ft (read_checkpoint w).2) = Some (strip text) ∧
  no_outer_space (strip text) ∧
  strip (strip text) = strip text ∧
  (Forall (λ c, isspace c = true) (list_ascii_of_string text) →
   last_checkpoint (ft (read_checkpoint w).2) = Some "").
Proof.
  intros Hfile. rewrite (read_checkpoint_present w text Hfile). simpl.
  split_and!; [done|apply strip_trimmed|apply strip_id, strip_trimmed|].
  intros Hsp. unfold strip. by rewrite (lstrip_spaces _ Hsp).
Qed.

(** The last marker stored is the one recovered: after two
    [create_checkpoint], a node of the same name made afterwards has the
    second value, trimmed, as [last_checkpoint]; the disk is otherwise as
    before the two writes. *)
Theorem last_checkpoint_stored_wins (w : World) (v1 v2 : string) cfg wr lg :
  (create_checkpoint v1 ;;; create_checkpoint v2) w = create_checkpoint v2 w ∧
  last_checkpoint
    (ft (BaseFT_init (name (ft w)) cfg
           (files ((create_checkpoint v1 ;;; create_checkpoint v2) w).2)
           wr lg).2) = Some (strip v2) ∧
  (∀ p, p ≠ chkp_path (ft w) →
     files ((create_checkpoint v1 ;;; create_checkpoint v2) w).2 !! p =
     files w !! p).
Proof.
  assert ((create_checkpoint v1 ;;; create_checkpoint v2) w =
          create_checkpoint v2 w) as Htwice.
  { monad_run. simpl. unfold set_files. simpl.
    by rewrite insert_insert_eq. }
  rewrite Htwice. split_and!; [done| |].
  - rewrite BaseFT_init_any. simpl.
    unfold create_checkpoint. monad_run. simpl.
    unfold chkp_path. by rewrite lookup_insert_eq.
  - intros p Hp. unfold create_checkpoint. monad_run. simpl.
    by rewrite lookup_insert_ne.
Qed.

End Boot.

(** ** Methods that leave the wiring of the node as it is *)

Section Wiring.
Context `{CM : ConditionModule}.

Lemma kw_bind {A B} (m : M World A) (k : A → M World B) :
  keeps_wiring m → (∀ a, keeps_wiring (k a)) → keeps_wiring (M_bind m k).
Proof.
  intros Hm Hk w. unfold M_bind. specialize (Hm w).
  destruct (m w) as [[a|e] w1]; simpl in *; [|done].
  destruct Hm as [Hm1 Hm2]. destruct (Hk a w1) as [Hw Hl].
  split; congruence.
Qed.

Lemma kw_ret {A} (a : A) : keeps_wiring (M_ret a).
Proof. by intros w. Qed.

Lemma kw_raise {A} (e : exn) : keeps_wiring (@raise World A e).
Proof. by intros w. Qed.

Lemma kw_gets {A} (f : World → A) : keeps_wiring (gets f).
Proof. by intros w. Qed.

Lemma kw_assign (f : BaseFT → BaseFT) :
  (∀ n, wiring (f n) = wiring n) → keeps_wiring (assign f).
Proof. intros Hf w. split; [apply Hf|done]. Qed.

Lemma kw_files (f : World → gmap string string) :
  keeps_wiring (modify (λ w, set_files (f w) w)).
Proof. by intros w. Qed.

Lemma kw_publish ch tp p : keeps_wiring (publish ch tp p).
Proof. by intros w. Qed.

Lemma kw_for_each {A} (l : list A) (body : A → M World unit) :
  (∀ x, keeps_wiring (body x)) → keeps_wiring (for_each l body).
Proof.
  intros Hb. induction l as [|x l IH]; simpl; [apply kw_ret|].
  apply kw_bind; [apply Hb|done].
Qed.

Lemma kw_create_checkpoint v : keeps_wiring (create_checkpoint v).
Proof.
  unfold create_checkpoint. apply kw_bind; [apply kw_gets|].
  intros n. apply kw_files.
Qed.

Lemma kw_emit_checkpoint v : keeps_wiring (emit_checkpoint v).
Proof.
  unfold emit_checkpoint. apply kw_bind; [apply kw_gets|]. intros n.
  destruct (output n); [apply kw_publish|apply kw_ret].
Qed.

Lemma kw_emit_filtered tp i v : keeps_wiring (emit_filtered tp i v).
Proof.
  unfold emit_filtered. apply kw_bind; [apply kw_gets|]. intros n.
  destruct (output n); [|apply kw_ret].
  destruct (apply_outfilters n i v) as [[x|] y];
    [apply kw_publish|apply kw_ret].
Qed.

Lemma kw_get_inputs_checkpoint : keeps_wiring get_inputs_checkpoint.
Proof.
  unfold get_inputs_checkpoint. apply kw_bind; [apply kw_gets|]. intros n.
  destruct (inputs_checkpoint n); [apply kw_ret|apply kw_raise].
Qed.

Lemma kw_quiesce v :
  keeps_wiring (assign (set_state IDLE) ;;;
                create_checkpoint v ;;;
                assign (set_last_checkpoint (Some v)) ;;;
                emit_checkpoint v).
Proof.
  apply kw_bind; [by apply kw_assign|]. intros _.
  apply kw_bind; [apply kw_create_checkpoint|]. intros _.
  apply kw_bind; [by apply kw_assign|]. intros _.
  apply kw_emit_checkpoint.
Qed.

(** [checkpoint], [start], [stop], [mgmtbus_initialize],
    [mgmtbus_state_info], [mgmtbus_checkpoint], the three [emit] methods,
    [create_checkpoint] and [read_checkpoint] leave the name of the node,
    its configuration and filters, its inputs and its output, and the
    requests made to the chassis, as they are, whether they return or
    raise. *)
Theorem wiring_is_fixed :
  (∀ s m, keeps_wiring (checkpoint s m)) ∧
  keeps_wiring start ∧
  keeps_wiring stop ∧
  keeps_wiring mgmtbus_initialize ∧
  keeps_wiring mgmtbus_state_info ∧
  (∀ m, keeps_wiring (mgmtbus_checkpoint m)) ∧
  (∀ i v, keeps_wiring (emit_update i v)) ∧
  (∀ i v, keeps_wiring (emit_withdraw i v)) ∧
  (∀ m, keeps_wiring (emit_checkpoint m)) ∧
  (∀ v, keeps_wiring (create_checkpoint v)) ∧
  keeps_wiring read_checkpoint.
Proof.
  split_and!.
  - intros s m. unfold checkpoint.
    apply kw_bind; [apply kw_gets|]. intros n.
    destruct (negb _); [apply kw_raise|].
    apply kw_bind; [apply kw_get_inputs_checkpoint|]. intros cp.
    apply kw_bind.
    { apply kw_for_each. intros v. unfold marker_check.
      destruct (decide _); [apply kw_raise|apply kw_ret]. }
    intros _. apply kw_bind; [by apply kw_assign|]. intros _.
    apply kw_bind; [apply kw_get_inputs_checkpoint|]. intros cp'.
    destruct (decide _); [by apply kw_assign|apply kw_quiesce].
  - unfold start. apply kw_bind; [apply kw_gets|]. intros n.
    destruct (decide _); [apply kw_raise|by apply kw_assign].
  - unfold stop. apply kw_bind; [apply kw_gets|]. intros n.
    destruct (negb _); [apply kw_raise|by apply kw_assign].
  - unfold mgmtbus_initialize.
    apply kw_bind; [by apply kw_assign|]. intros _. apply kw_ret.
  - unfold mgmtbus_state_info.
    apply kw_bind; [apply kw_gets|]. intros n. apply kw_ret.
  - intros m. unfold mgmtbus_checkpoint.
    apply kw_bind; [apply kw_gets|]. intros n.
    destruct (decide _); [apply kw_ret|].
    apply kw_bind; [by apply kw_assign|]. intros _.
    apply kw_bind; [apply kw_create_checkpoint|]. intros _.
    apply kw_bind; [by apply kw_assign|]. intros _.
    apply kw_bind; [apply kw_emit_checkpoint|]. intros _. apply kw_ret.
  - intros i v. apply kw_emit_filtered.
  - intros i v. apply kw_emit_filtered.
  - apply kw_emit_checkpoint.
  - apply kw_create_checkpoint.
  - unfold read_checkpoint.
    apply kw_bind; [by apply kw_assign|]. intros _.
    apply kw_bind; [apply kw_gets|]. intros n.
    apply kw_bind; [apply kw_gets|]. intros content.
    destruct content; [|apply kw_ret].
    apply kw_bind; [by apply kw_assign|]. intros _. apply kw_files.
Qed.

End Wiring.

(** ** What the fabric asks of the transport *)

Section FabricMore.
Context `{CM : ConditionModule}.
Variable CommState : Type.
Variable comm_send_rpc :
  string → string → record → bool → option Z → M CommState pyval.

(** [Fabric.send_rpc] calls the transport once, for the destination and
    the method it was given, with the parameters it was given in which
    [source] is the sender, whatever [source] the caller had put there,
    and with the same [block] and [timeout]; an exception of the
    transport goes through with the state the transport left. [do_rpc],
    through a chassis that hands the call to the fabric, does this with
    the name of the node as the sender. *)
Theorem send_rpc_names_the_sender (n : BaseFT) sftname dftname method
    (params : record) block timeout (s : CommState) :
  Fabric.send_rpc CommState comm_send_rpc sftname dftname method params
                  block timeout s =
    match comm_send_rpc dftname method
            (<["source" := PyStr sftname]> params) block timeout s with
    | (Ok _, s') => (Ok PyNone, s')
    | (Raise e, s') => (Raise e, s')
    end ∧
  (<["source" := PyStr sftname]> params) !! "source" = Some (PyStr sftname) ∧
  (∀ k, k ≠ "source" →
     (<["source" := PyStr sftname]> params) !! k = params !! k) ∧
  do_rpc CommState (Chassis_send_rpc CommState comm_send_rpc) n dftname
         method block timeout params s =
    Fabric.send_rpc CommState comm_send_rpc (name n) dftname method params
                    block timeout s.
Proof.
  split_and!; [done|apply lookup_insert_eq| |done].
  intros k Hk. by rewrite lookup_insert_ne.
Qed.

End FabricMore.

(** ** The further properties on the examples *)

Lemma log_noise_passed_over d : passed_over log_noise d.
Proof.
  right. intros a Ha. apply list_elem_of_singleton in Ha as ->.
  by intros [?|?].
Defined.

(** A record without [noise] goes through the chain that logs and drops
    the noise. *)
Lemma Filters_apply_default_accept_witness :
  Filters_apply [log_noise; drop_noise] (Some "1.2.3.4") (Some ip_value) =
  (Some "1.2.3.4", Some (delete "_indicator" ip_value)).
Proof.
  apply (@Filters_apply_default_accept PresenceConditions
           [log_noise; drop_noise] (Some "1.2.3.4") (Some ip_value)).
  intros f Hf. apply elem_of_cons in Hf as [->|Hf].
  - apply log_noise_passed_over.
  - apply list_elem_of_singleton in Hf as ->. left. by vm_compute.
Defined.

(** A record with [noise] is dropped by the second filter, at its second
    action, whatever follows. *)
Lemma Filters_apply_first_match_witness :
  Filters_apply [log_noise; drop_noise; accept_all] (Some "1.2.3.4")
                (Some noisy_value) = (None, None).
Proof.
  apply (@Filters_apply_first_match PresenceConditions [log_noise]
           [accept_all] drop_noise ["log"] ["accept"] "drop"
           (Some "1.2.3.4") (Some noisy_value)).
  - intros g Hg. apply list_elem_of_singleton in Hg as ->.
    apply log_noise_passed_over.
  - by vm_compute.
  - reflexivity.
  - intros x Hx. apply list_elem_of_singleton in Hx as ->. by intros [?|?].
  - reflexivity.
Defined.

(** [A] has sent its checkpoint to [C] and sends an update. *)
Lemma checkpointed_source_is_fatal_witness :
  started_or_checkpoint (ft (world (run_C CHECKPOINT (Some markers_A)))) ∧
  is_Some (markers_A !! "A") ∧
  @update PresenceConditions Forwarder "A" (Some "1.2.3.4") (Some ip_value)
    (run_C CHECKPOINT (Some markers_A)) =
  (Raise (AssertionError "update recevied from checkpointed source"),
   run_C CHECKPOINT (Some markers_A)).
Proof.
  assert (started_or_checkpoint
            (ft (world (run_C CHECKPOINT (Some markers_A)))))
    as Hst by (by right).
  assert (is_Some (markers_A !! "A")) as Hsrc by (by exists "cp-7").
  split_and!; [done|done|].
  apply (@checkpointed_source_is_fatal PresenceConditions Forwarder
           (run_C CHECKPOINT (Some markers_A)) "A" (Some "1.2.3.4")
           (Some ip_value) markers_A Hst eq_refl Hsrc).
Defined.

(** A withdraw of a record that the in-filters of [C] would drop. *)
Lemma withdraw_is_not_filtered_witness :
  started_or_checkpoint (ft (world (run_C STARTED (Some ∅)))) ∧
  calls (@withdraw PresenceConditions Forwarder "A" (Some "1.2.3.4")
           (Some noisy_value) (run_C STARTED (Some ∅))).2 =
  [CallFilteredWithdraw "A" (Some "1.2.3.4")
     (Some (strip_underscore noisy_value))].
Proof.
  assert (started_or_checkpoint (ft (world (run_C STARTED (Some ∅)))))
    as Hst by (by left).
  split; [done|].
  apply (@withdraw_is_not_filtered PresenceConditions Forwarder
           (run_C STARTED (Some ∅)) "A" (Some "1.2.3.4") (Some noisy_value)
           ∅ Hst eq_refl eq_refl).
Defined.

(** An update to the node [C] with the methods of [BaseFT]. *)
Lemma BaseFT_is_abstract_witness :
  started_or_checkpoint (ft (world (run_C STARTED (Some ∅)))) ∧
  @withdraw PresenceConditions BaseFT_hooks "A" (Some "1.2.3.4") None
    (run_C STARTED (Some ∅)) =
  (Raise (NotImplementedError "C: withdraw"),
   mkRun (world_C STARTED (Some ∅))
         [CallFilteredWithdraw "A" (Some "1.2.3.4") None]).
Proof.
  assert (started_or_checkpoint (ft (world (run_C STARTED (Some ∅)))))
    as Hst by (by left).
  split; [done|].
  apply (@BaseFT_is_abstract PresenceConditions (run_C STARTED (Some ∅))
           "A" (Some "1.2.3.4") None ∅ Hst eq_refl eq_refl).
Defined.

Lemma NoDup_A_B : NoDup ["A"; "B"].
Proof.
  apply NoDup_cons. split; [|apply NoDup_singleton].
  intros Hin. by apply list_elem_of_singleton in Hin.
Defined.

(** The two-input barrier of [C], from the start. *)
Lemma barrier_run_witness :
  started_or_checkpoint (ft (world_C STARTED (Some ∅))) ∧
  NoDup ["A"; "B"] ∧
  (deliver ["A"] "cp-7" (world_C STARTED (Some ∅))).1 = Ok tt ∧
  state (ft (deliver ["A"; "B"] "cp-7" (world_C STARTED (Some ∅))).2) = IDLE.
Proof.
  assert (started_or_checkpoint (ft (world_C STARTED (Some ∅))))
    as Hst by (by left).
  split_and!; [done|apply NoDup_A_B| |].
  - by vm_compute.
  - destruct (barrier_run (world_C STARTED (Some ∅)) ["A"; "B"] "cp-7"
                Hst eq_refl NoDup_A_B) as [Hrun _]; [done|simpl; lia|].
    by rewrite Hrun.
Defined.

(** [A] sends "cp-7" to [C] a second time. *)
Lemma checkpoint_again_changes_nothing_witness :
  state (ft (world_C CHECKPOINT (Some markers_A))) = CHECKPOINT ∧
  markers_A !! "A" = Some "cp-7" ∧
  size markers_A ≠
    length (inputs (ft (world_C CHECKPOINT (Some markers_A)))) ∧
  checkpoint "A" "cp-7" (world_C CHECKPOINT (Some markers_A)) =
  (Ok tt, world_C CHECKPOINT (Some markers_A)).
Proof.
  assert (size markers_A ≠
          length (inputs (ft (world_C CHECKPOINT (Some markers_A)))))
    as Hsize by (by vm_compute).
  split_and!; [done|done|done|].
  apply (checkpoint_again_changes_nothing
           (world_C CHECKPOINT (Some markers_A)) "A" "cp-7" markers_A
           eq_refl eq_refl markers_A_agree eq_refl Hsize).
Defined.

(** The source [S] receives a checkpoint on the data path. *)
Lemma checkpoint_without_inputs_witness :
  inputs (ft (world_S STARTED (Some "S"))) = [] ∧
  state (ft (checkpoint "X" "cp-7" (world_S STARTED (Some "S"))).2)
    = CHECKPOINT ∧
  files (checkpoint "X" "cp-7" (world_S STARTED (Some "S"))).2 = ∅.
Proof.
  assert (started_or_checkpoint (ft (world_S STARTED (Some "S"))))
    as Hst by (by left).
  assert (agrees (∅ : gmap string string) "cp-7") as Ha by (by intros s v).
  rewrite (checkpoint_without_inputs (world_S STARTED (Some "S")) "X" "cp-7"
             ∅ eq_refl Hst eq_refl Ha).
  done.
Defined.

(** [C] after [B] completes the barrier "cp-7". *)
Lemma barrier_quiesces_witness :
  agrees markers_A "cp-7" ∧
  size (<["B" := "cp-7"]> markers_A) =
    length (inputs (ft (world_C CHECKPOINT (Some markers_A)))) ∧
  stop (checkpoint "B" "cp-7" (world_C CHECKPOINT (Some markers_A))).2 =
  (Ok tt,
   with_ft (set_state STOPPED)
     (checkpoint "B" "cp-7" (world_C CHECKPOINT (Some markers_A))).2).
Proof.
  assert (started_or_checkpoint (ft (world_C CHECKPOINT (Some markers_A))))
    as Hst by (by right).
  assert (size (<["B" := "cp-7"]> markers_A) =
          length (inputs (ft (world_C CHECKPOINT (Some markers_A)))))
    as Hsize by (by vm_compute).
  split_and!; [apply markers_A_agree|done|].
  apply (@barrier_quiesces PresenceConditions Forwarder
           (world_C CHECKPOINT (Some markers_A)) "B" "cp-7" markers_A
           Hst eq_refl markers_A_agree Hsize).
Defined.

(** [C], idle after the barrier "cp-7", is reset and started; [A] sends
    an update. *)
Lemma reset_keeps_sources_shut_out_witness :
  markers_AB !! "A" = Some "cp-7" ∧
  ((@mgmtbus_reset PresenceConditions Forwarder ;;;
    lift start ;;;
    @update PresenceConditions Forwarder "A" (Some "1.2.3.4")
      (Some ip_value)) (run_C IDLE (Some markers_AB))).1 =
  Raise (AssertionError "update recevied from checkpointed source").
Proof.
  split; [done|].
  destruct (@reset_keeps_sources_shut_out PresenceConditions Forwarder
              (run_C IDLE (Some markers_AB)) "A" (Some "1.2.3.4")
              (Some ip_value) markers_AB "cp-7"
              (λ w, eq_refl) eq_refl eq_refl) as [Hupd _].
  by rewrite Hupd.
Defined.

(** A subclass whose [reset] raises: the node [C] stays in RESET. *)
Lemma failing_hook_is_not_recovered_witness :
  (@mgmtbus_reset PresenceConditions Failing (run_C INIT (Some ∅))).1 =
    Raise (NotImplementedError "reset") ∧
  state (ft (world (@mgmtbus_reset PresenceConditions Failing
                      (run_C INIT (Some ∅))).2)) = RESET.
Proof.
  destruct (@failing_hook_is_not_recovered PresenceConditions Failing
              (run_C INIT (Some ∅)) (NotImplementedError "reset")
              (with_ft (set_state RESET) (world (run_C INIT (Some ∅)))))
    as [Hreset _].
  by rewrite (Hreset eq_refl).
Defined.

(** [C] is connected twice. *)
Lemma connect_only_once_witness :
  state (ft (world_C READY None)) = READY ∧
  (connect ["A"] false
     (connect ["A"; "B"] true (world_C READY None)).2).1 =
  Raise (AssertionError "connect called in non ready FT").
Proof.
  split; [done|].
  destruct (connect_only_once (world_C READY None) ["A"; "B"] true ["A"]
              false eq_refl) as [_ Hsecond].
  by rewrite Hsecond.
Defined.

(** A checkpoint file with white space around the marker. *)
Lemma recovered_marker_is_trimmed_witness :
  files (world_C_on_disk "  cp-3 ")
    !! chkp_path (ft (world_C_on_disk "  cp-3 ")) = Some "  cp-3 " ∧
  last_checkpoint (ft (read_checkpoint (world_C_on_disk "  cp-3 ")).2)
  = Some "cp-3".
Proof.
  assert (files (world_C_on_disk "  cp-3 ")
            !! chkp_path (ft (world_C_on_disk "  cp-3 ")) = Some "  cp-3 ")
    as Hfile by (by vm_compute).
  split; [done|].
  destruct (recovered_marker_is_trimmed (world_C_on_disk "  cp-3 ")
              "  cp-3 " Hfile) as [Hlast _].
  by rewrite Hlast.
Defined.

(** ** What the subclass is handed, and a node that was not connected *)

Section HandOver.
Context `{CM : ConditionModule} `{H : !Hooks}.


End HandOver.

Section Unconnected.
Context `{CM : ConditionModule}.

(** A node of the class [BaseFT] that is made, initialized and started
    without [connect] is in state STARTED without the attribute
    [inputs_checkpoint]: every update, withdraw and checkpoint raises the
    [AttributeError] of the missing attribute and changes nothing. *)
Theorem unconnected_node_fails nm cfg (fs : gmap string string) wr lg
    source indicator value m log :
  state (ft ((mgmtbus_initialize ;;; start)
               (BaseFT_init nm cfg fs wr lg).2).2) = STARTED ∧
  inputs_checkpoint
    (ft ((mgmtbus_initialize ;;; start)
           (BaseFT_init nm cfg fs wr lg).2).2) = None ∧
  @update CM BaseFT_hooks source indicator value
    (mkRun ((mgmtbus_initialize ;;; start)
              (BaseFT_init nm cfg fs wr lg).2).2 log) =
    (Raise (AttributeError
              "'BaseFT' object has no attribute 'inputs_checkpoint'"),
     mkRun ((mgmtbus_initialize ;;; start)
              (BaseFT_init nm cfg fs wr lg).2).2 log) ∧
  @withdraw CM BaseFT_hooks source indicator value
    (mkRun ((mgmtbus_initialize ;;; start)
              (BaseFT_init nm cfg fs wr lg).2).2 log) =
    (Raise (AttributeError
              "'BaseFT' object has no attribute 'inputs_checkpoint'"),
     mkRun ((mgmtbus_initialize ;;; start)
              (BaseFT_init nm cfg fs wr lg).2).2 log) ∧
  checkpoint source m
    ((mgmtbus_initialize ;;; start) (BaseFT_init nm cfg fs wr lg).2).2 =
    (Raise (AttributeError
              "'BaseFT' object has no attribute 'inputs_checkpoint'"),
     ((mgmtbus_initialize ;;; start) (BaseFT_init nm cfg fs wr lg).2).2).
Proof.
  rewrite BaseFT_init_any. by split_and!.
Qed.

End Unconnected.

